(** * Text-to-speech page (src/App.js): waveform synthesis, WAV packaging
      and the playback / capture orchestration.

    The development follows the source function by function.

    - JavaScript Numbers are IEEE-754 binary64 values: they are Rocq's
      primitive floats, so that [*], [/], [+] round exactly as the engine
      does.  Numbers that the source uses as integers (sample counts, byte
      offsets, loop indices, word indices) are kept in [Z].
    - JavaScript strings are sequences of UTF-16 code units: [list Z].
    - An [ArrayBuffer] is a list of bytes; [DataView] setters fail with a
      [RangeError] outside the buffer, which is [None] here.
    - React state and refs are one record; handlers are functions from that
      record to a new record and the list of calls made to the host
      (speech engine, recorder, alerts).  Outcomes the host decides
      (permission granted, a call throwing) are explicit arguments.

    What is assumed of the host: a handler runs to completion before the
    next event (the [await]s of [speak] included); a user's handler sees
    the state of the last render; [speechSynthesis.speaking] is true from
    the start event of an utterance to its end, its error or [cancel()];
    [MediaRecorder.start()] and [stop()] change [state] at once and
    [stop()] is followed by the recorder's data and [stop] events.  Events
    of an utterance that was cancelled are not modelled. *)

From Stdlib Require Import ZArith Uint63 Floats Ascii String Lia Sorted.
From stdpp Require Import base list.

Set Warnings "-inexact-float".
Local Open Scope Z_scope.

(** ** JavaScript values *)

Module JS.

(** *** Strings *)

Definition jsstring := list Z.

(** A literal of the source, as code units. *)
Definition str (s : string) : jsstring :=
  map (fun a => Z.of_N (N_of_ascii a)) (list_ascii_of_string s).

(** ECMAScript WhiteSpace and LineTerminator code points: what
    [String.prototype.trim] strips. *)
Definition isWhiteSpace (c : Z) : bool :=
  (9 <=? c) && (c <=? 13) || (c =? 32) || (c =? 160) || (c =? 5760) ||
  (8192 <=? c) && (c <=? 8202) || (c =? 8232) || (c =? 8233) ||
  (c =? 8239) || (c =? 8287) || (c =? 12288) || (c =? 65279).

Fixpoint trimStart (s : jsstring) : jsstring :=
  match s with
  | c :: s' => if isWhiteSpace c then trimStart s' else s
  | [] => []
  end.

Definition trimEnd (s : jsstring) : jsstring := rev (trimStart (rev s)).

Definition trim (s : jsstring) : jsstring := trimEnd (trimStart s).

(** [s.split(sep)] for a one-unit separator: every occurrence of [sep]
    ends a piece, so the result is never empty ([""] splits to [[""]]). *)
Fixpoint split (sep : Z) (s : jsstring) : list jsstring :=
  match s with
  | [] => [[]]
  | c :: s' =>
      if c =? sep then [] :: split sep s'
      else match split sep s' with
           | w :: ws => (c :: w) :: ws
           | [] => [[c]]
           end
  end.

(** *** Numbers *)

(** The Number nearest to an integer of fewer than 63 bits (exact below
    2^53): the value a count, an index or a length has as a Number. *)
Definition ofZ (z : Z) : float :=
  if z <? 0 then (- of_uint63 (Uint63.of_Z (- z)))%float
  else of_uint63 (Uint63.of_Z z).

(** [Math.floor], read as an integer.  NaN and the infinities have no
    integer value; 0 stands for them. *)
Definition Math_floor (x : float) : Z :=
  match Prim2SF x with
  | S754_finite s m e =>
      let k := if s then Z.neg m else Z.pos m in
      if 0 <=? e then Z.shiftl k e else Z.shiftr k (- e)
  | _ => 0
  end.

(** Truncation toward zero (ToIntegerOrInfinity on a finite Number);
    NaN gives 0, as do the infinities under the modular conversions
    that use it. *)
Definition truncate (x : float) : Z :=
  match Prim2SF x with
  | S754_finite s m e =>
      let k := if 0 <=? e then Z.shiftl (Z.pos m) e
               else Z.shiftr (Z.pos m) (- e) in
      if s then - k else k
  | _ => 0
  end.

(** [Math.min] and [Math.max]: NaN if an argument is, and -0 below +0. *)
Definition Math_min (a b : float) : float :=
  if is_nan a || is_nan b then nan
  else if (a <? b)%float then a
  else if (b <? a)%float then b
  else if get_sign a then a else b.

Definition Math_max (a b : float) : float :=
  if is_nan a || is_nan b then nan
  else if (a <? b)%float then b
  else if (b <? a)%float then a
  else if get_sign a then b else a.

(** [Math.PI]. *)
Definition Math_PI : float := 0x1.921fb54442d18p+1%float.

(** The remainder operator [%] on Numbers: the exact remainder of the
    truncating division, with the sign of the dividend. *)
Definition rem (x y : float) : float :=
  match Prim2SF x, Prim2SF y with
  | S754_nan, _ | _, S754_nan => nan
  | S754_infinity _, _ => nan
  | _, S754_zero _ => nan
  | S754_zero _, _ => x
  | S754_finite _ _ _, S754_infinity _ => x
  | S754_finite sx mx ex, S754_finite _ my ey =>
      let e := Z.min ex ey in
      let r := Z.rem (Z.shiftl (Z.pos mx) (ex - e))
                     (Z.shiftl (Z.pos my) (ey - e)) in
      match r with
      | Z.pos p => SF2Prim (S754_finite sx p e)
      | _ => if sx then (-0)%float else 0%float
      end
  end.

(** Typed-array conversions. *)
Definition ToUint8 (v : Z) : Z := v mod 256.
Definition ToUint16 (v : Z) : Z := v mod 65536.
Definition ToUint32 (v : Z) : Z := v mod 4294967296.

(** [ToInt16]: the value modulo 2^16, read as a signed 16-bit integer. *)
Definition ToInt16 (v : Z) : Z :=
  let u := v mod 65536 in if u <? 32768 then u else u - 65536.

End JS.

Import JS.

(** ** ArrayBuffer and DataView *)

Module DataView.

Definition buffer := list Z.

(** The [n] low bytes of [v], least significant first. *)
Fixpoint bytesLE (n : nat) (v : Z) : list Z :=
  match n with
  | O => []
  | S k => Z.land v 255 :: bytesLE k (Z.shiftr v 8)
  end.

Definition bytesOf (littleEndian : bool) (n : nat) (v : Z) : list Z :=
  if littleEndian then bytesLE n v else rev (bytesLE n v).

(** Writing [bs] at byte offset [off]: a [RangeError] unless the bytes
    fit inside the buffer. *)
Definition store (off : Z) (bs : list Z) (b : buffer) : option buffer :=
  if (0 <=? off) && (off + Z.of_nat (length bs) <=? Z.of_nat (length b))
  then Some (take (Z.to_nat off) b ++ bs ++
             drop (Z.to_nat off + length bs) b)
  else None.

Definition setUint8 (off v : Z) (b : buffer) : option buffer :=
  store off [ToUint8 v] b.

Definition setUint16 (off v : Z) (littleEndian : bool) (b : buffer) :=
  store off (bytesOf littleEndian 2 (ToUint16 v)) b.

Definition setUint32 (off v : Z) (littleEndian : bool) (b : buffer) :=
  store off (bytesOf littleEndian 4 (ToUint32 v)) b.

(** [setInt16] receives a Number: it is truncated, then wrapped to
    16 bits. *)
Definition setInt16 (off : Z) (v : float) (littleEndian : bool)
    (b : buffer) :=
  store off (bytesOf littleEndian 2 (ToUint16 (truncate v))) b.

(** Readers, used to decode what was written. *)
Definition fromLE (bs : list Z) : Z :=
  foldr (fun x acc => x + 256 * acc) 0 bs.

Definition load (off : Z) (n : nat) (b : buffer) : option (list Z) :=
  if (0 <=? off) && (off + Z.of_nat n <=? Z.of_nat (length b))
  then Some (take n (drop (Z.to_nat off) b))
  else None.

Definition getUint16 (off : Z) (b : buffer) : option Z :=
  fromLE <$> load off 2 b.

Definition getUint32 (off : Z) (b : buffer) : option Z :=
  fromLE <$> load off 4 b.

Definition getInt16 (off : Z) (b : buffer) : option Z :=
  ToInt16 <$> getUint16 off b.

End DataView.

Import DataView.

(** ** The waveform generator and its container *)

(** Numeric services of the host that the generator calls.
    [Math_random k] is the value returned by the call made for sample [k];
    [allocates n] tells whether [new ArrayBuffer(n)] succeeds. *)
Class Host := {
  Math_sin : float -> float;
  Math_random : Z -> float;
  allocates : Z -> bool
}.

Record Blob := { blob_bytes : list Z; blob_type : string }.

Inductive promise (A : Type) :=
| Resolved (a : A)
| Rejected.
Arguments Resolved {A} a.
Arguments Rejected {A}.

Module Wav.

Definition sampleRate : Z := 22050.

Definition duration (text : jsstring) : float :=
  Math_max 2 (Math_min (ofZ (Z.of_nat (length text)) * 0.15) 30).

Definition numSamples (text : jsstring) : Z :=
  Math_floor (ofZ sampleRate * duration text).

Definition new_ArrayBuffer `{Host} (n : Z) : option buffer :=
  if (0 <=? n) && allocates n then Some (replicate (Z.to_nat n) 0)
  else None.

Fixpoint writeString (offset : Z) (s : jsstring) (view : buffer)
    : option buffer :=
  match s with
  | [] => Some view
  | c :: s' => view' ← setUint8 offset c view;
               writeString (offset + 1) s' view'
  end.

(** Lines 167-179: the 44-byte header. *)
Definition writeHeader (numSamples : Z) (view : buffer) : option buffer :=
  view ← writeString 0 (str "RIFF") view;
  view ← setUint32 4 (36 + numSamples * 2) true view;
  view ← writeString 8 (str "WAVE") view;
  view ← writeString 12 (str "fmt ") view;
  view ← setUint32 16 16 true view;
  view ← setUint16 20 1 true view;
  view ← setUint16 22 1 true view;
  view ← setUint32 24 sampleRate true view;
  view ← setUint32 28 (sampleRate * 2) true view;
  view ← setUint16 32 2 true view;
  view ← setUint16 34 16 true view;
  view ← writeString 36 (str "data") view;
  setUint32 40 (numSamples * 2) true view.

Definition words (text : jsstring) : list jsstring := split 32 text.

Definition wordDuration (text : jsstring) : float :=
  duration text / ofZ (Z.of_nat (length (words text))).

Definition time (i : Z) : float := ofZ i / ofZ sampleRate.

Definition wordIndex (text : jsstring) (i : Z) : Z :=
  Math_floor (time i / wordDuration text).

Definition wordTime (text : jsstring) (i : Z) : float :=
  rem (time i) (wordDuration text).

Definition baseFreq (wordIndex : Z) : Z := 120 + Z.rem wordIndex 5 * 40.

Section Sample.
Context `{Host}.

Definition formant1 (baseFreq : Z) (time : float) : float :=
  Math_sin (2 * Math_PI * ofZ baseFreq * time).

Definition formant2 (baseFreq : Z) (time : float) : float :=
  Math_sin (2 * Math_PI * (ofZ baseFreq * 2.5) * time) * 0.3.

Definition formant3 (baseFreq : Z) (time : float) : float :=
  Math_sin (2 * Math_PI * (ofZ baseFreq * 3.5) * time) * 0.1.

Definition amplitude (text : jsstring) (i : Z) : float :=
  let wordProgress := (wordTime text i / wordDuration text)%float in
  Math_sin (wordProgress * Math_PI) * (1 - time i / duration text) * 0.4.

(** The value of [sample] when it is written (lines 192-214). *)
Definition sample (text : jsstring) (i : Z) : float :=
  let f := baseFreq (wordIndex text i) in
  let t := time i in
  (formant1 f t + formant2 f t + formant3 f t) * amplitude text i * 32767
  + (Math_random i - 0.5) * 1000.

(** The Number handed to [setInt16]. *)
Definition clamped (text : jsstring) (i : Z) : float :=
  Math_max (-32768) (Math_min 32767 (sample text i)).

(** The loop of lines 186-222: [count] iterations from index [i],
    writing at [offset]. *)
Fixpoint writeSamples (value : Z -> float) (count : nat) (i offset : Z)
    (view : buffer) : option buffer :=
  match count with
  | O => Some view
  | S count' =>
      view' ← setInt16 offset (value i) true view;
      writeSamples value count' (i + 1) (offset + 2) view'
  end.

(** The buffer built for [numSamples] samples whose values are [value]. *)
Definition encode (numSamples : Z) (value : Z -> float) : option buffer :=
  buffer ← new_ArrayBuffer (44 + numSamples * 2);
  view ← writeHeader numSamples buffer;
  writeSamples value (Z.to_nat numSamples) 0 44 view.

(** The body of [try] in [generateHighQualityAudio]; [None] when it
    throws. *)
Definition tryGenerate (text : jsstring) : option buffer :=
  encode (numSamples text) (clamped text).

Definition generateHighQualityAudio (text : jsstring) : promise Blob :=
  match tryGenerate text with
  | Some buffer => Resolved {| blob_bytes := buffer; blob_type := "audio/wav" |}
  | None => Resolved {| blob_bytes := []; blob_type := "audio/wav" |}
  end.

End Sample.

(** *** Reading a header back *)

Record header := {
  audioFormat : Z; channels : Z; rate : Z; byteRate : Z;
  blockAlign : Z; bitsPerSample : Z; dataBytes : Z; riffSize : Z
}.

Definition tagAt (off : Z) (tag : string) (b : buffer) : bool :=
  bool_decide (load off 4 b = Some (str tag)).

Definition decode (b : buffer) : option header :=
  if tagAt 0 "RIFF" b && tagAt 8 "WAVE" b && tagAt 12 "fmt " b &&
     tagAt 36 "data" b && bool_decide (getUint32 16 b = Some 16)
  then
    riff ← getUint32 4 b;
    fmt ← getUint16 20 b;
    ch ← getUint16 22 b;
    sr ← getUint32 24 b;
    br ← getUint32 28 b;
    ba ← getUint16 32 b;
    bits ← getUint16 34 b;
    len ← getUint32 40 b;
    Some {| audioFormat := fmt; channels := ch; rate := sr; byteRate := br;
            blockAlign := ba; bitsPerSample := bits; dataBytes := len;
            riffSize := riff |}
  else None.

End Wav.

(** ** The page: state, host calls and handlers *)

Module App.

(** [MediaRecorder.state]. *)
Inductive RecordingState := inactive | recording | paused.

(** [recorder && recorder.state === st], for a recorder ref that may be
    unset. *)
Definition inState (st : RecordingState) (recorder : option RecordingState)
    : bool :=
  match recorder, st with
  | Some inactive, inactive | Some recording, recording
  | Some paused, paused => true
  | _, _ => false
  end.

(** What [speak] hands to the speech engine. *)
Record Utterance := {
  u_text : jsstring; u_voice : option string;
  u_rate : float; u_pitch : float; u_volume : float
}.

(** Calls made to the host, in order.  An object URL is identified with
    the Blob it was created for. *)
Inductive call :=
| alert (msg : string)
| console_error (msg : string)
| synth_cancel
| synth_speak (u : Utterance)
| synth_pause
| synth_resume
| getUserMedia
| recorder_start
| recorder_stop
| track_stop
| createObjectURL (b : Blob)
| revokeObjectURL (b : Blob)
| link_click (href : Blob) (download : Z).

(** React state, the refs, the locals that [speak] closes over for its
    event handlers, and the one fact about the host that handlers do not
    see: whether a recorder owes its [stop] event. *)
Record state := {
  text : jsstring; isSpeaking : bool; selectedVoice : option string;
  rate : float; pitch : float; volume : float; isPaused : bool;
  audioUrl : option Blob; isProcessing : bool; isRecording : bool;
  recordingError : string;
  synth_speaking : bool;                  (* synthRef.current.speaking *)
  mediaRecorder : option RecordingState;  (* mediaRecorderRef.current *)
  audioChunks : list (list Z);            (* audioChunksRef.current *)
  stream : bool;                          (* streamRef.current is set *)
  utterance : option Utterance;           (* utteranceRef.current *)
  spokenText : jsstring;                  (* text, as handlers closed over it *)
  recordingReady : bool; recordingStarted : bool;
  stopEventPending : bool
}.

Definition setText v s :=
  {| text := v; isSpeaking := isSpeaking s; selectedVoice := selectedVoice s;
     rate := rate s; pitch := pitch s; volume := volume s;
     isPaused := isPaused s; audioUrl := audioUrl s;
     isProcessing := isProcessing s; isRecording := isRecording s;
     recordingError := recordingError s; synth_speaking := synth_speaking s;
     mediaRecorder := mediaRecorder s; audioChunks := audioChunks s;
     stream := stream s; utterance := utterance s;
     spokenText := spokenText s; recordingReady := recordingReady s;
     recordingStarted := recordingStarted s;
     stopEventPending := stopEventPending s |}.

Definition setIsSpeaking v s :=
  {| text := text s; isSpeaking := v; selectedVoice := selectedVoice s;
     rate := rate s; pitch := pitch s; volume := volume s;
     isPaused := isPaused s; audioUrl := audioUrl s;
     isProcessing := isProcessing s; isRecording := isRecording s;
     recordingError := recordingError s; synth_speaking := synth_speaking s;
     mediaRecorder := mediaRecorder s; audioChunks := audioChunks s;
     stream := stream s; utterance := utterance s;
     spokenText := spokenText s; recordingReady := recordingReady s;
     recordingStarted := recordingStarted s;
     stopEventPending := stopEventPending s |}.

Definition setIsPaused v s :=
  {| text := text s; isSpeaking := isSpeaking s;
     selectedVoice := selectedVoice s; rate := rate s; pitch := pitch s;
     volume := volume s; isPaused := v; audioUrl := audioUrl s;
     isProcessing := isProcessing s; isRecording := isRecording s;
     recordingError := recordingError s; synth_speaking := synth_speaking s;
     mediaRecorder := mediaRecorder s; audioChunks := audioChunks s;
     stream := stream s; utterance := utterance s;
     spokenText := spokenText s; recordingReady := recordingReady s;
     recordingStarted := recordingStarted s;
     stopEventPending := stopEventPending s |}.

Definition setAudioUrl v s :=
  {| text := text s; isSpeaking := isSpeaking s;
     selectedVoice := selectedVoice s; rate := rate s; pitch := pitch s;
     volume := volume s; isPaused := isPaused s; audioUrl := v;
     isProcessing := isProcessing s; isRecording := isRecording s;
     recordingError := recordingError s; synth_speaking := synth_speaking s;
     mediaRecorder := mediaRecorder s; audioChunks := audioChunks s;
     stream := stream s; utterance := utterance s;
     spokenText := spokenText s; recordingReady := recordingReady s;
     recordingStarted := recordingStarted s;
     stopEventPending := stopEventPending s |}.

Definition setIsProcessing v s :=
  {| text := text s; isSpeaking := isSpeaking s;
     selectedVoice := selectedVoice s; rate := rate s; pitch := pitch s;
     volume := volume s; isPaused := isPaused s; audioUrl := audioUrl s;
     isProcessing := v; isRecording := isRecording s;
     recordingError := recordingError s; synth_speaking := synth_speaking s;
     mediaRecorder := mediaRecorder s; audioChunks := audioChunks s;
     stream := stream s; utterance := utterance s;
     spokenText := spokenText s; recordingReady := recordingReady s;
     recordingStarted := recordingStarted s;
     stopEventPending := stopEventPending s |}.

Definition setIsRecording v s :=
  {| text := text s; isSpeaking := isSpeaking s;
     selectedVoice := selectedVoice s; rate := rate s; pitch := pitch s;
     volume := volume s; isPaused := isPaused s; audioUrl := audioUrl s;
     isProcessing := isProcessing s; isRecording := v;
     recordingError := recordingError s; synth_speaking := synth_speaking s;
     mediaRecorder := mediaRecorder s; audioChunks := audioChunks s;
     stream := stream s; utterance := utterance s;
     spokenText := spokenText s; recordingReady := recordingReady s;
     recordingStarted := recordingStarted s;
     stopEventPending := stopEventPending s |}.

Definition setRecordingError v s :=
  {| text := text s; isSpeaking := isSpeaking s;
     selectedVoice := selectedVoice s; rate := rate s; pitch := pitch s;
     volume := volume s; isPaused := isPaused s; audioUrl := audioUrl s;
     isProcessing := isProcessing s; isRecording := isRecording s;
     recordingError := v; synth_speaking := synth_speaking s;
     mediaRecorder := mediaRecorder s; audioChunks := audioChunks s;
     stream := stream s; utterance := utterance s;
     spokenText := spokenText s; recordingReady := recordingReady s;
     recordingStarted := recordingStarted s;
     stopEventPending := stopEventPending s |}.

Definition set_synth_speaking v s :=
  {| text := text s; isSpeaking := isSpeaking s;
     selectedVoice := selectedVoice s; rate := rate s; pitch := pitch s;
     volume := volume s; isPaused := isPaused s; audioUrl := audioUrl s;
     isProcessing := isProcessing s; isRecording := isRecording s;
     recordingError := recordingError s; synth_speaking := v;
     mediaRecorder := mediaRecorder s; audioChunks := audioChunks s;
     stream := stream s; utterance := utterance s;
     spokenText := spokenText s; recordingReady := recordingReady s;
     recordingStarted := recordingStarted s;
     stopEventPending := stopEventPending s |}.

Definition set_mediaRecorder v s :=
  {| text := text s; isSpeaking := isSpeaking s;
     selectedVoice := selectedVoice s; rate := rate s; pitch := pitch s;
     volume := volume s; isPaused := isPaused s; audioUrl := audioUrl s;
     isProcessing := isProcessing s; isRecording := isRecording s;
     recordingError := recordingError s; synth_speaking := synth_speaking s;
     mediaRecorder := v; audioChunks := audioChunks s; stream := stream s;
     utterance := utterance s; spokenText := spokenText s;
     recordingReady := recordingReady s;
     recordingStarted := recordingStarted s;
     stopEventPending := stopEventPending s |}.

Definition set_audioChunks v s :=
  {| text := text s; isSpeaking := isSpeaking s;
     selectedVoice := selectedVoice s; rate := rate s; pitch := pitch s;
     volume := volume s; isPaused := isPaused s; audioUrl := audioUrl s;
     isProcessing := isProcessing s; isRecording := isRecording s;
     recordingError := recordingError s; synth_speaking := synth_speaking s;
     mediaRecorder := mediaRecorder s; audioChunks := v; stream := stream s;
     utterance := utterance s; spokenText := spokenText s;
     recordingReady := recordingReady s;
     recordingStarted := recordingStarted s;
     stopEventPending := stopEventPending s |}.

Definition set_stream v s :=
  {| text := text s; isSpeaking := isSpeaking s;
     selectedVoice := selectedVoice s; rate := rate s; pitch := pitch s;
     volume := volume s; isPaused := isPaused s; audioUrl := audioUrl s;
     isProcessing := isProcessing s; isRecording := isRecording s;
     recordingError := recordingError s; synth_speaking := synth_speaking s;
     mediaRecorder := mediaRecorder s; audioChunks := audioChunks s;
     stream := v; utterance := utterance s; spokenText := spokenText s;
     recordingReady := recordingReady s;
     recordingStarted := recordingStarted s;
     stopEventPending := stopEventPending s |}.

Definition set_utterance v s :=
  {| text := text s; isSpeaking := isSpeaking s;
     selectedVoice := selectedVoice s; rate := rate s; pitch := pitch s;
     volume := volume s; isPaused := isPaused s; audioUrl := audioUrl s;
     isProcessing := isProcessing s; isRecording := isRecording s;
     recordingError := recordingError s; synth_speaking := synth_speaking s;
     mediaRecorder := mediaRecorder s; audioChunks := audioChunks s;
     stream := stream s; utterance := v; spokenText := spokenText s;
     recordingReady := recordingReady s;
     recordingStarted := recordingStarted s;
     stopEventPending := stopEventPending s |}.

Definition set_spokenText v s :=
  {| text := text s; isSpeaking := isSpeaking s;
     selectedVoice := selectedVoice s; rate := rate s; pitch := pitch s;
     volume := volume s; isPaused := isPaused s; audioUrl := audioUrl s;
     isProcessing := isProcessing s; isRecording := isRecording s;
     recordingError := recordingError s; synth_speaking := synth_speaking s;
     mediaRecorder := mediaRecorder s; audioChunks := audioChunks s;
     stream := stream s; utterance := utterance s; spokenText := v;
     recordingReady := recordingReady s;
     recordingStarted := recordingStarted s;
     stopEventPending := stopEventPending s |}.

Definition set_recordingReady v s :=
  {| text := text s; isSpeaking := isSpeaking s;
     selectedVoice := selectedVoice s; rate := rate s; pitch := pitch s;
     volume := volume s; isPaused := isPaused s; audioUrl := audioUrl s;
     isProcessing := isProcessing s; isRecording := isRecording s;
     recordingError := recordingError s; synth_speaking := synth_speaking s;
     mediaRecorder := mediaRecorder s; audioChunks := audioChunks s;
     stream := stream s; utterance := utterance s;
     spokenText := spokenText s; recordingReady := v;
     recordingStarted := recordingStarted s;
     stopEventPending := stopEventPending s |}.

Definition set_recordingStarted v s :=
  {| text := text s; isSpeaking := isSpeaking s;
     selectedVoice := selectedVoice s; rate := rate s; pitch := pitch s;
     volume := volume s; isPaused := isPaused s; audioUrl := audioUrl s;
     isProcessing := isProcessing s; isRecording := isRecording s;
     recordingError := recordingError s; synth_speaking := synth_speaking s;
     mediaRecorder := mediaRecorder s; audioChunks := audioChunks s;
     stream := stream s; utterance := utterance s;
     spokenText := spokenText s; recordingReady := recordingReady s;
     recordingStarted := v; stopEventPending := stopEventPending s |}.

Definition set_stopEventPending v s :=
  {| text := text s; isSpeaking := isSpeaking s;
     selectedVoice := selectedVoice s; rate := rate s; pitch := pitch s;
     volume := volume s; isPaused := isPaused s; audioUrl := audioUrl s;
     isProcessing := isProcessing s; isRecording := isRecording s;
     recordingError := recordingError s; synth_speaking := synth_speaking s;
     mediaRecorder := mediaRecorder s; audioChunks := audioChunks s;
     stream := stream s; utterance := utterance s;
     spokenText := spokenText s; recordingReady := recordingReady s;
     recordingStarted := recordingStarted s; stopEventPending := v |}.

(** *** Handlers as computations

    A handler runs on a state and yields the state it leaves, the calls
    it made and its result; [None] is an exception that escaped. *)

Record outcome (A : Type) := {
  result : option A; after : state; made : list call
}.
Arguments result {A} o.
Arguments after {A} o.
Arguments made {A} o.

Definition M (A : Type) := state -> outcome A.

Definition ret {A} (a : A) : M A :=
  fun s => {| result := Some a; after := s; made := [] |}.

Definition bind {A B} (m : M A) (k : A -> M B) : M B :=
  fun s =>
    let r := m s in
    match result r with
    | Some a =>
        let r' := k a (after r) in
        {| result := result r'; after := after r';
           made := made r ++ made r' |}
    | None => {| result := None; after := after r; made := made r |}
    end.

Definition throw {A} : M A :=
  fun s => {| result := None; after := s; made := [] |}.

(** [try { body } catch { handler }]: what [body] did before it threw
    stays done. *)
Definition try_catch {A} (body handler : M A) : M A :=
  fun s =>
    let r := body s in
    match result r with
    | Some _ => r
    | None =>
        let r' := handler (after r) in
        {| result := result r'; after := after r';
           made := made r ++ made r' |}
    end.

Definition get {A} (f : state -> A) : M A := fun s => ret (f s) s.

Definition modify (f : state -> state) : M unit :=
  fun s => {| result := Some tt; after := f s; made := [] |}.

Definition host (c : call) : M unit :=
  fun s => {| result := Some tt; after := s; made := [c] |}.

Global Instance M_ret : MRet M := @ret.
Global Instance M_bind : MBind M := fun A B k m => bind m k.

(** *** Host operations and the flags they change *)

(** [speechSynthesis.cancel()]: speaking ceases at once. *)
Definition synth_cancel_op : M unit :=
  host synth_cancel ;; modify (set_synth_speaking false).

(** [recorder.start()]; whether it throws is the host's. *)
Definition recorder_start_op (throws : bool) : M unit :=
  if throws then throw
  else host recorder_start ;; modify (set_mediaRecorder (Some recording)).

(** [recorder.stop()]: the recorder becomes inactive and owes its [stop]
    event. *)
Definition recorder_stop_op (throws : bool) : M unit :=
  if throws then throw
  else host recorder_stop ;; modify (set_mediaRecorder (Some inactive)) ;;
       modify (set_stopEventPending true).

(** What [getUserMedia] and the [MediaRecorder] constructor do. *)
Inductive mediaOutcome :=
| unsupported                 (* no navigator.mediaDevices.getUserMedia *)
| denied                      (* getUserMedia rejects *)
| granted (recorderOk : bool) (* a stream; the constructor may throw *).

Section Handlers.
Context `{Host}.

(** [if (audioUrl) { URL.revokeObjectURL(audioUrl); setAudioUrl(null) }],
    where [audioUrl] is the value the running handler closed over: a
    handler does not see its own [setAudioUrl]. *)
Definition releaseAudioUrl (audioUrl : option Blob) : M unit :=
  match audioUrl with
  | Some b => host (revokeObjectURL b) ;; modify (setAudioUrl None)
  | None => ret tt
  end.

Definition setupAudioRecording (audioUrl : option Blob)
    (media : mediaOutcome) : M bool :=
  try_catch
    (modify (setRecordingError "") ;;
     releaseAudioUrl audioUrl ;;
     modify (set_audioChunks []) ;;
     match media with
     | unsupported => throw
     | denied => host getUserMedia ;; throw
     | granted recorderOk =>
         host getUserMedia ;;
         modify (set_stream true) ;;
         if recorderOk
         then modify (set_mediaRecorder (Some inactive)) ;; ret true
         else throw
     end)
    (host (console_error "Recording setup failed:") ;;
     modify (setRecordingError
               "Audio recording not available. Using fallback audio.") ;;
     ret false).

(** [mediaRecorder.ondataavailable]. *)
Definition mediaRecorder_ondataavailable (data : list Z) : M unit :=
  if (0 <? length data)%nat
  then chunks ← get audioChunks; modify (set_audioChunks (chunks ++ [data]))
  else ret tt.

Definition capturedBlob (chunks : list (list Z)) : Blob :=
  {| blob_bytes := concat chunks; blob_type := "audio/webm" |}.

(** [mediaRecorder.onstop]. *)
Definition mediaRecorder_onstop : M unit :=
  chunks ← get audioChunks;
  let audioBlob := capturedBlob chunks in
  host (createObjectURL audioBlob) ;;
  modify (setAudioUrl (Some audioBlob)) ;;
  modify (setIsRecording false) ;;
  live ← get stream;
  if live : bool then host track_stop else ret tt.

Definition emptyBlob : Blob := {| blob_bytes := []; blob_type := "audio/wav" |}.

Definition generateFallbackAudio : M unit :=
  t ← get spokenText;
  try_catch
    (match Wav.generateHighQualityAudio t with
     | Resolved audioBlob =>
         host (createObjectURL audioBlob) ;;
         modify (setAudioUrl (Some audioBlob))
     | Rejected => throw
     end)
    (host (console_error "Fallback audio failed:") ;;
     host (createObjectURL emptyBlob) ;;
     modify (setAudioUrl (Some emptyBlob))).

(** [utterance.onstart]. *)
Definition utterance_onstart (startThrows : bool) : M unit :=
  modify (setIsSpeaking true) ;;
  modify (setIsPaused false) ;;
  ready ← get recordingReady;
  rec ← get mediaRecorder;
  if ready && inState inactive rec
  then try_catch
         (modify (setIsRecording true) ;;
          recorder_start_op startThrows ;;
          modify (set_recordingStarted true))
         (host (console_error "Failed to start recording:") ;;
          modify (set_recordingStarted false))
  else ret tt.

(** [utterance.onend]. *)
Definition utterance_onend (stopThrows : bool) : M unit :=
  modify (setIsSpeaking false) ;;
  modify (setIsPaused false) ;;
  modify (setIsProcessing false) ;;
  started ← get recordingStarted;
  rec ← get mediaRecorder;
  if started && inState recording rec
  then try_catch
         (recorder_stop_op stopThrows)
         (host (console_error "Error stopping recording:") ;;
          generateFallbackAudio)
  else generateFallbackAudio.

(** [utterance.onerror]. *)
Definition utterance_onerror : M unit :=
  host (console_error "Speech error:") ;;
  modify (setIsSpeaking false) ;;
  modify (setIsPaused false) ;;
  modify (setIsProcessing false) ;;
  generateFallbackAudio.

(** What the host decides during one call of [speak]. *)
Record speakOracle := { media : mediaOutcome; speechThrows : bool }.

(** [speak], past its guard on blank text; [t] is the text. *)
Definition speakText (o : speakOracle) (t : jsstring) : M unit :=
  url ← get audioUrl;
  speaking ← get synth_speaking;
  (if speaking : bool then synth_cancel_op else ret tt) ;;
  releaseAudioUrl url ;;
  modify (setIsProcessing true) ;;
  modify (setRecordingError "") ;;
  try_catch
    (voice ← get selectedVoice;
     r ← get rate; p ← get pitch; v ← get volume;
     let u := {| u_text := t; u_voice := voice;
                 u_rate := r; u_pitch := p; u_volume := v |} in
     modify (set_utterance (Some u)) ;;
     ready ← setupAudioRecording url (media o);
     modify (set_spokenText t) ;;
     modify (set_recordingReady ready) ;;
     modify (set_recordingStarted false) ;;
     if speechThrows o then throw else host (synth_speak u))
    (host (console_error "Speak function error:") ;;
     modify (setIsProcessing false) ;;
     modify (set_spokenText t) ;;
     generateFallbackAudio).

Definition speak (o : speakOracle) : M unit :=
  t ← get text;
  if bool_decide (trim t = [])
  then host (alert "Please enter some text to speak.")
  else speakText o t.

Definition pause : M unit :=
  speaking ← get synth_speaking;
  p ← get isPaused;
  if speaking && negb p
  then host synth_pause ;; modify (setIsPaused true)
  else ret tt.

Definition resume : M unit :=
  speaking ← get synth_speaking;
  p ← get isPaused;
  if speaking && p
  then host synth_resume ;; modify (setIsPaused false)
  else ret tt.

Definition stop (stopThrows : bool) : M unit :=
  speaking ← get synth_speaking;
  if speaking : bool
  then
    synth_cancel_op ;;
    modify (setIsSpeaking false) ;;
    modify (setIsPaused false) ;;
    modify (setIsProcessing false) ;;
    rec ← get mediaRecorder;
    if inState recording rec
    then recorder_stop_op stopThrows
    else modify (setIsRecording false)
  else ret tt.

Definition handleClear (stopThrows : bool) : M unit :=
  url ← get audioUrl;
  modify (setText []) ;;
  stop stopThrows ;;
  modify (setRecordingError "") ;;
  releaseAudioUrl url.

(** [downloadAudio]; [now] is [new Date().getTime()]. *)
Definition downloadAudio (now : Z) (clickThrows : bool) : M unit :=
  url ← get audioUrl;
  match url with
  | None =>
      host (alert
        "No audio available to download. Please generate speech first.")
  | Some b =>
      try_catch
        (if clickThrows then throw else host (link_click b now))
        (host (console_error "Download error:") ;;
         host (alert "Error downloading audio."))
  end.

(** *** Events delivered by the host *)

(** The engine reports that the utterance started: it is speaking. *)
Definition deliver_start (startThrows : bool) : M unit :=
  modify (set_synth_speaking true) ;; utterance_onstart startThrows.

Inductive completion := ended | errored.

(** The engine reports the end of the utterance, or an error: it no
    longer speaks. *)
Definition deliver_completion (c : completion) (stopThrows : bool)
    : M unit :=
  modify (set_synth_speaking false) ;;
  match c with
  | ended => utterance_onend stopThrows
  | errored => utterance_onerror
  end.

Fixpoint deliver_data (chunks : list (list Z)) : M unit :=
  match chunks with
  | [] => ret tt
  | d :: chunks' => mediaRecorder_ondataavailable d ;; deliver_data chunks'
  end.

(** A recorder that was stopped delivers its last data, then [stop]. *)
Definition deliver_recorder_stop (lastData : list (list Z)) : M unit :=
  pending ← get stopEventPending;
  if pending : bool
  then deliver_data lastData ;;
       modify (set_stopEventPending false) ;;
       mediaRecorder_onstop
  else ret tt.

(** An attempt is over once the completion handler has run and the
    recorder, if it was stopped, has delivered its [stop] event. *)
Definition finish (c : completion) (stopThrows : bool)
    (lastData : list (list Z)) : M unit :=
  deliver_completion c stopThrows ;; deliver_recorder_stop lastData.

End Handlers.

(** The page as it is first rendered. *)
Definition initial : state :=
  {| text := []; isSpeaking := false; selectedVoice := None;
     rate := 1; pitch := 1; volume := 1; isPaused := false;
     audioUrl := None; isProcessing := false; isRecording := false;
     recordingError := ""; synth_speaking := false; mediaRecorder := None;
     audioChunks := []; stream := false; utterance := None;
     spokenText := []; recordingReady := false; recordingStarted := false;
     stopEventPending := false |}.

End App.

(** ** Vocabulary of the specification

    Definitions that follow the wording of the specification, to be
    compared with the code above. *)

(** clamp(x, lo, hi). *)
Definition clamp (x lo hi : float) : float :=
  if (x <? lo)%float then lo else if (hi <? x)%float then hi else x.

(** Rounding to the nearest integer, ties upward ([Math.round]). *)
Definition nearest (x : float) : Z := Math_floor (x + 0.5).

(** "Total sample count = round(duration x sampleRate)". *)
Definition spec_sampleCount (sampleRate : Z) (text : jsstring) : Z :=
  nearest (clamp (ofZ (Z.of_nat (length text)) * 0.15) 2 30 * ofZ sampleRate).

(** The canonical 44-byte header of the container (section 6). *)
Definition canonicalHeader (sampleRate channels dataBytes : Z) : list Z :=
  str "RIFF" ++ bytesLE 4 (36 + dataBytes) ++ str "WAVE" ++
  str "fmt " ++ bytesLE 4 16 ++ bytesLE 2 1 ++ bytesLE 2 channels ++
  bytesLE 4 sampleRate ++ bytesLE 4 (sampleRate * channels * 2) ++
  bytesLE 2 (channels * 2) ++ bytesLE 2 16 ++
  str "data" ++ bytesLE 4 dataBytes.

(** One sample as it is stored: 16 bits, little-endian. *)
Definition int16LE (value : Z -> float) (i : Z) : list Z :=
  bytesLE 2 (ToUint16 (truncate (value i))).




(** A chunk that [ondataavailable] keeps. *)
Definition nonempty (d : list Z) : bool := (0 <? length d)%nat.

(** Synthesizer then Encoder applied to a text: the Blob that
    [generateHighQualityAudio] resolves with. *)
Definition synthesized `{Host} (t : jsstring) : Blob :=
  {| blob_bytes := match Wav.tryGenerate t with Some b => b | None => [] end;
     blob_type := "audio/wav" |}.

(** Capture was recording and the completion handler stopped it. *)
Definition stoppedCapture (c : App.completion) (stopThrows : bool)
    (s : App.state) : bool :=
  match c with App.ended => true | App.errored => false end &&
  App.recordingStarted s &&
  App.inState App.recording (App.mediaRecorder s) &&
  negb stopThrows.

(** Capture is armed: the device was granted and the recorder built. *)
Definition captureReady (m : App.mediaOutcome) : bool :=
  match m with App.granted true => true | _ => false end.

(** The start handler starts the recorder. *)
Definition captureStarts (startThrows : bool) (s : App.state) : bool :=
  App.recordingReady s && App.inState App.inactive (App.mediaRecorder s) &&
  negb startThrows.

(** One whole attempt: [speak], the engine's start, its completion, and
    the recorder's stop event if it was stopped. *)
Definition attempt `{Host} (o : App.speakOracle) (startThrows : bool)
    (c : App.completion) (stopThrows : bool) (lastData : list (list Z))
    : App.M unit :=
  App.speak o ;; App.deliver_start startThrows ;;
  App.finish c stopThrows lastData.

(** ** Vocabulary of the proofs *)

(** A Number that is not negative: NaN, or of sign +. *)
Definition nonneg (x : spec_float) : Prop :=
  match x with
  | S754_zero s | S754_infinity s | S754_finite s _ _ => s = false
  | S754_nan => True
  end.

(** A Number that is not NaN and not negative. *)
Definition positiveOrZero (x : spec_float) : Prop :=
  match x with
  | S754_zero s | S754_infinity s | S754_finite s _ _ => s = false
  | S754_nan => False
  end.

(** The sample count as a function of the length of the text. *)
Definition numSamplesOfLength (n : nat) : Z :=
  Math_floor (ofZ Wav.sampleRate *
              Math_max 2 (Math_min (ofZ (Z.of_nat n) * 0.15) 30)).

(** A writer is local when it succeeds on a longer buffer as it does on
    a prefix, and leaves the rest alone. *)
Definition local (w : buffer -> option buffer) : Prop :=
  forall pre rest pre', w pre = Some pre' ->
    w (pre ++ rest) = Some (pre' ++ rest) /\ length pre' = length pre.

(** ** Hosts and states used as concrete inputs *)

(** A host whose sine is constantly 0 and whose random source returns
    0.5: the waveform it yields is silence. *)
Definition quietHost : Host :=
  {| Math_sin := fun _ => 0%float; Math_random := fun _ => 0.5%float;
     allocates := fun _ => true |}.


Definition hello : jsstring := str "Hello there friend".

(** The text "Hi" has been typed. *)
Definition typed : App.state := App.setText (str "Hi") App.initial.

Definition microphone : App.speakOracle :=
  {| App.media := App.granted true; App.speechThrows := false |}.

(** [speak] was called, the microphone was granted and the engine
    reported the start: the page speaks and records. *)
Definition speakingAndRecording : App.state :=
  App.after (App.deliver_start false
    (App.after (App.speak (H := quietHost) microphone typed))).

(** The same, after a first chunk of three bytes arrived. *)
Definition capturing : App.state :=
  App.after (App.mediaRecorder_ondataavailable [1; 2; 3] speakingAndRecording).


Definition noMicrophone : App.speakOracle :=
  {| App.media := App.denied; App.speechThrows := false |}.

(** ** The effect of the first render and its cleanup *)

Module Lifecycle.
Import App.

(** The cleanup that the effect of lines 44-84 returns; [audioUrl] is
    the value it closed over. *)
Definition cleanup (audioUrl : option Blob) : M unit :=
  speaking ← get synth_speaking;
  (if speaking : bool then synth_cancel_op else ret tt) ;;
  match audioUrl with
  | Some b => host (revokeObjectURL b)
  | None => ret tt
  end ;;
  live ← get stream;
  if live : bool then host track_stop else ret tt.

(** The effect has no dependencies: it runs once, after the first
    render, and its cleanup sees the [audioUrl] of that render. *)
Definition unmount : M unit := cleanup (audioUrl initial).

End Lifecycle.

(** ** Voices: the list, its filter and the badges *)

Module Voices.

(** What the page reads of a [SpeechSynthesisVoice]. *)
Record Voice := { name : jsstring; lang : jsstring; localService : bool }.

(** String services whose result depends on Unicode tables or on the
    locale: they are the host's. *)
Class Locale := {
  localeCompare : jsstring -> jsstring -> Z;
  toLowerCase : jsstring -> jsstring
}.

(** [s.startsWith(prefix)]. *)
Fixpoint startsWith (s prefix : jsstring) : bool :=
  match prefix, s with
  | [], _ => true
  | p :: prefix', c :: s' => (c =? p) && startsWith s' prefix'
  | _ :: _, [] => false
  end.

(** [s.includes(sub)]. *)
Fixpoint includes (s sub : jsstring) : bool :=
  startsWith s sub ||
  match s with
  | [] => false
  | _ :: s' => includes s' sub
  end.

(** [array.sort(comparefn)]: the sort is stable, so for a consistent
    comparator its result is the one of any stable sort; here an element
    goes before the first one that [comparefn] does not put before
    it. *)
Fixpoint insert {A} (comparefn : A -> A -> Z) (x : A) (l : list A)
    : list A :=
  match l with
  | [] => [x]
  | y :: l' =>
      if comparefn x y <=? 0 then x :: l else y :: insert comparefn x l'
  end.

Definition sort {A} (comparefn : A -> A -> Z) (l : list A) : list A :=
  foldr (insert comparefn) [] l.

(** The part of the page's state that the voice panel uses.  (The
    handlers of [App] only pass the selected voice on to the engine;
    there it is identified by its name.) *)
Record state := {
  voices : list Voice;
  selectedVoice : option Voice;
  languageFilter : jsstring
}.

Definition setVoices v s :=
  {| voices := v; selectedVoice := selectedVoice s;
     languageFilter := languageFilter s |}.

Definition setSelectedVoice v s :=
  {| voices := voices s; selectedVoice := v;
     languageFilter := languageFilter s |}.

Definition setLanguageFilter v s :=
  {| voices := voices s; selectedVoice := selectedVoice s;
     languageFilter := v |}.

(** The panel as it is first rendered. *)
Definition initial : state :=
  {| voices := []; selectedVoice := None; languageFilter := str "hi" |}.

Section Loading.
Context `{Locale}.

(** The comparator of lines 47-52. *)
Definition compareVoices (a b : Voice) : Z :=
  if bool_decide (lang a = lang b)
  then localeCompare (name a) (name b)
  else localeCompare (lang a) (lang b).

(** Lines 57-60: [x || y] is [x] when a voice was found. *)
Definition defaultVoice (sortedVoices : list Voice) : option Voice :=
  match find (fun voice => includes (lang voice) (str "hi")) sortedVoices with
  | Some voice => Some voice
  | None =>
      match
        find (fun voice => includes (lang voice) (str "en")) sortedVoices
      with
      | Some voice => Some voice
      | None => head sortedVoices
      end
  end.

(** [loadVoices]; [availableVoices] is what [getVoices()] returns. *)
Definition loadVoices (availableVoices : list Voice) (s : state) : state :=
  let sortedVoices := sort compareVoices availableVoices in
  let s := setVoices sortedVoices s in
  match defaultVoice sortedVoices with
  | Some voice => setSelectedVoice (Some voice) s
  | None => s
  end.

(** [getVoiceType]. *)
Definition getVoiceType (voice : Voice) : string :=
  let name := toLowerCase (name voice) in
  let lang := toLowerCase (lang voice) in
  if includes lang (str "hi") then "Hindi"
  else if includes lang (str "en") then "English"
  else if includes name (str "google") then "Google"
  else if includes name (str "microsoft") then "Microsoft"
  else if includes name (str "apple") then "Apple"
  else if includes name (str "female") then "Female"
  else if includes name (str "male") then "Male"
  else if includes name (str "natural") then "Natural"
  else "Standard".

End Loading.

Definition handleVoiceChange (voiceName : jsstring) (s : state) : state :=
  let selected :=
    find (fun v => bool_decide (name v = voiceName)) (voices s) in
  setSelectedVoice selected s.

Definition handleLanguageFilterChange (value : jsstring) (s : state)
    : state :=
  setLanguageFilter value s.

(** Lines 444-447. *)
Definition filteredVoices (s : state) : list Voice :=
  if bool_decide (languageFilter s = str "all") then voices s
  else List.filter (fun voice => startsWith (lang voice) (languageFilter s))
         (voices s).

(** The own properties of the object literal of lines 451-461. *)
Definition colors : list (string * string) :=
  [("Google", "#4285f4"); ("Microsoft", "#00a4ef"); ("Apple", "#a2aaad");
   ("Female", "#e91e63"); ("Male", "#2196f3"); ("Natural", "#4caf50");
   ("Standard", "#ff9800"); ("Hindi", "#FF6B6B");
   ("English", "#4ECDC4")]%string.

Fixpoint property (key : string) (object : list (string * string))
    : option string :=
  match object with
  | [] => None
  | (k, v) :: object' =>
      if String.eqb k key then Some v else property key object'
  end.

(** [colors[type] || "#757575"], for a [type] that names no property
    inherited from [Object.prototype]. *)
Definition getVoiceTypeColor (type : string) : string :=
  match property type colors with
  | Some color => color
  | None => "#757575"
  end.

End Voices.

(** ** More vocabulary of the proofs *)

(** Kinds of host calls. *)
Definition isRevoke (c : App.call) : bool :=
  match c with App.revokeObjectURL _ => true | _ => false end.

Definition isRecorderCall (c : App.call) : bool :=
  match c with
  | App.recorder_stop | App.track_stop => true
  | _ => false
  end.

Definition isAlert (c : App.call) : bool :=
  match c with App.alert _ => true | _ => false end.

(** A comparison of strings that is a total order. *)
Definition consistent (cmp : jsstring -> jsstring -> Z) : Prop :=
  (forall a b, Z.sgn (cmp b a) = - Z.sgn (cmp a b)) /\
  (forall a b c, cmp a b <= 0 -> cmp b c <= 0 -> cmp a c <= 0) /\
  (forall a b, cmp a b = 0 -> a = b).

(** Listed by language, and by name within a language. *)
Definition listedBefore `{Voices.Locale} (u w : Voices.Voice) : Prop :=
  Voices.localeCompare (Voices.lang u) (Voices.lang w) <= 0 /\
  (Voices.lang u = Voices.lang w ->
   Voices.localeCompare (Voices.name u) (Voices.name w) <= 0).

(** An attempt during which the text is edited while the engine
    speaks. *)
Definition editedAttempt `{Host} (o : App.speakOracle) (edit : jsstring)
    (startThrows : bool) (c : App.completion) (stopThrows : bool)
    (lastData : list (list Z)) : App.M unit :=
  App.speak o ;; App.deliver_start startThrows ;;
  App.modify (App.setText edit) ;; App.finish c stopThrows lastData.

(** ** More concrete inputs *)

(** A locale that orders strings by code units and lowers the 26 ASCII
    capitals only. *)
Fixpoint codeUnitCompare (a b : jsstring) : Z :=
  match a, b with
  | [], [] => 0
  | [], _ :: _ => -1
  | _ :: _, [] => 1
  | x :: a', y :: b' => if x =? y then codeUnitCompare a' b' else x - y
  end.

Definition asciiLocale : Voices.Locale :=
  {| Voices.localeCompare := codeUnitCompare;
     Voices.toLowerCase :=
       map (fun c => if (65 <=? c) && (c <=? 90) then c + 32 else c) |}.

Definition voice (name lang : string) : Voices.Voice :=
  {| Voices.name := str name; Voices.lang := str lang;
     Voices.localService := true |}.

Definition installed : list Voices.Voice :=
  [voice "Zira" "en-US"; voice "Hortense" "fr-FR"; voice "David" "en-US";
   voice "Kalpana" "hi-IN"].

(** The panel once [installed] was loaded. *)
Definition loaded : Voices.state :=
  Voices.loadVoices (H := asciiLocale) installed Voices.initial.

(** A page that holds an artifact and whose text is "Hi". *)
Definition holding : App.state :=
  App.setAudioUrl (Some (App.capturedBlob [[1; 2; 3]])) typed.


(** * Checks on concrete inputs *)

Example str_length : length hello = 18%nat.
Proof. reflexivity. Qed.

Example rem_fraction : rem 5.5 2 = 1.5%float /\ rem (-5.5) 2 = (-1.5)%float.
Proof. split; vm_compute; reflexivity. Qed.

Example trim_blank : trim (str "  ") = [] /\ trim (str " a b ") = str "a b".
Proof. split; reflexivity. Qed.

Example encode_two :
  Wav.encode (H := quietHost) 2
    (fun i => if i =? 0 then (-2.7)%float else 300.9%float)
  = Some [82;73;70;70;40;0;0;0;87;65;86;69;102;109;116;32;16;0;0;0;1;0;1;0;
          34;86;0;0;68;172;0;0;2;0;16;0;100;97;116;97;4;0;0;0;
          254;255;44;1].
Proof. vm_compute. reflexivity. Qed.

Example speakingAndRecording_flags :
  App.synth_speaking speakingAndRecording = true /\
  App.isSpeaking speakingAndRecording = true /\
  App.isRecording speakingAndRecording = true /\
  App.mediaRecorder speakingAndRecording = Some App.recording /\
  App.recordingStarted speakingAndRecording = true /\
  App.audioUrl speakingAndRecording = None.
Proof. vm_compute. repeat split. Qed.

(** * Duration and sample count *)

Module NumberFacts.

Lemma is_nan_spec x :
  is_nan x = match Prim2SF x with S754_nan => true | _ => false end.
Proof.
  unfold is_nan. rewrite FloatAxioms.eqb_spec.
  destruct (Prim2SF x) as [s|s| |s m e]; try destruct s; cbn;
    try reflexivity;
    rewrite ?Z.compare_refl, ?Pos.compare_cont_refl; reflexivity.
Qed.

(** Order of two positive finite values, on exponent then mantissa. *)
Lemma SFltb_positive m1 e1 m2 e2 :
  SFltb (S754_finite false m1 e1) (S754_finite false m2 e2) =
  (e1 <? e2) || (e1 =? e2) && (Z.pos m1 <? Z.pos m2).
Proof.
  unfold SFltb, SFcompare.
  destruct (Z.compare_spec e1 e2) as [-> | Hlt | Hgt].
  - rewrite Z.ltb_irrefl, Z.eqb_refl. reflexivity.
  - apply Z.ltb_lt in Hlt. rewrite Hlt. reflexivity.
  - assert ((e1 <? e2) = false) as -> by lia.
    assert ((e1 =? e2) = false) as -> by lia.
    reflexivity.
Qed.

Lemma Math_max_2 x :
  is_nan x = false ->
  Math_max 2 x = if (2 <? x)%float then x else 2%float.
Proof.
  intros Hn. unfold Math_max. change (is_nan 2) with false. rewrite Hn.
  change (get_sign 2) with false. cbn [orb].
  destruct (2 <? x)%float; [reflexivity|].
  destruct (x <? 2)%float; reflexivity.
Qed.

Ltac bool_cases :=
  repeat match goal with
  | |- context [ (Z.ltb ?a ?b) ] => destruct (Z.ltb_spec a b)
  | |- context [ (Z.eqb ?a ?b) ] => destruct (Z.eqb_spec a b)
  end.

(** The nest of [Math.max] and [Math.min] of line 154 is the clamp to
    [2, 30], for every Number, NaN and the zeros included. *)
Lemma max_min_clamp x : Math_max 2 (Math_min x 30) = clamp x 2 30.
Proof.
  unfold Math_min, clamp.
  change (is_nan 30) with false. rewrite orb_false_r.
  destruct (Prim2SF x) as [s|s| |s m e] eqn:Ex.
  - assert (x = if s then (-0)%float else 0%float) as ->.
    { apply Prim2SF_inj. rewrite Ex. destruct s; reflexivity. }
    destruct s; vm_compute; reflexivity.
  - assert (x = if s then neg_infinity else infinity) as ->.
    { apply Prim2SF_inj. rewrite Ex. destruct s; reflexivity. }
    destruct s; vm_compute; reflexivity.
  - assert (x = nan) as ->. { apply Prim2SF_inj. rewrite Ex. reflexivity. }
    reflexivity.
  - assert (Hn : is_nan x = false) by (rewrite is_nan_spec, Ex; reflexivity).
    rewrite Hn. cbn [orb].
    assert (E30 : m = 8444249301319680%positive -> e = -48 -> s = false ->
                  x = 30%float).
    { intros -> -> ->. apply Prim2SF_inj. rewrite Ex. reflexivity. }
    assert (E2 : m = 4503599627370496%positive -> e = -51 -> s = false ->
                 x = 2%float).
    { intros -> -> ->. apply Prim2SF_inj. rewrite Ex. reflexivity. }
    assert (L30 : (x <? 30)%float =
                  if s then true
                  else (e <? -48) ||
                       (e =? -48) && (Z.pos m <? 8444249301319680)).
    { rewrite FloatAxioms.ltb_spec, Ex.
      change (Prim2SF 30) with (S754_finite false 8444249301319680 (-48)).
      destruct s; [reflexivity | apply SFltb_positive]. }
    assert (G30 : (30 <? x)%float =
                  if s then false
                  else (-48 <? e) ||
                       (-48 =? e) && (8444249301319680 <? Z.pos m)).
    { rewrite FloatAxioms.ltb_spec, Ex.
      change (Prim2SF 30) with (S754_finite false 8444249301319680 (-48)).
      destruct s; [reflexivity | apply SFltb_positive]. }
    assert (L2 : (x <? 2)%float =
                 if s then true
                 else (e <? -51) ||
                      (e =? -51) && (Z.pos m <? 4503599627370496)).
    { rewrite FloatAxioms.ltb_spec, Ex.
      change (Prim2SF 2) with (S754_finite false 4503599627370496 (-51)).
      destruct s; [reflexivity | apply SFltb_positive]. }
    assert (G2 : (2 <? x)%float =
                 if s then false
                 else (-51 <? e) ||
                      (-51 =? e) && (4503599627370496 <? Z.pos m)).
    { rewrite FloatAxioms.ltb_spec, Ex.
      change (Prim2SF 2) with (S754_finite false 4503599627370496 (-51)).
      destruct s; [reflexivity | apply SFltb_positive]. }
    rewrite L30, G30, L2.
    destruct s.
    + rewrite (Math_max_2 x Hn), G2. reflexivity.
    + bool_cases; cbn [orb andb]; try lia;
        rewrite ?(Math_max_2 x Hn), ?G2; try reflexivity.
      all: bool_cases; cbn [orb andb]; try lia; try reflexivity.
      * symmetry. apply E2; [lia | lia | reflexivity].
      * assert (Hx : x = 30%float) by (apply E30; [lia | lia | reflexivity]).
        rewrite Hx. reflexivity.
Qed.

(** Two Numbers with different values are different. *)
Lemma float_neq (x y : float) : Prim2SF x <> Prim2SF y -> x <> y.
Proof. intros Hne ->. apply Hne. reflexivity. Qed.

(** Rounding keeps the sign it is given. *)
Lemma nonneg_round_aux m e l : nonneg (binary_round_aux prec emax false m e l).
Proof.
  unfold binary_round_aux.
  destruct (shr_fexp prec emax m e l) as [mrs' e'].
  destruct (shr_fexp prec emax _ e' loc_Exact) as [mrs'' e''].
  destruct (shr_m mrs''); [exact eq_refl| |exact I].
  destruct (e'' <=? emax - prec); exact eq_refl.
Qed.

Lemma nonneg_mul x y : nonneg x -> nonneg y -> nonneg (SF64mul x y).
Proof.
  unfold SF64mul, SFmul.
  destruct x as [sx|sx| |sx mx ex], y as [sy|sy| |sy my ey];
    cbv beta iota delta [nonneg]; intros; subst;
    first [exact I | exact eq_refl | apply nonneg_round_aux].
Qed.


Lemma nonneg_ofZ z : 0 <= z -> nonneg (Prim2SF (ofZ z)).
Proof.
  intros Hz. unfold ofZ. destruct (Z.ltb_spec z 0); [lia|].
  rewrite of_uint63_spec. unfold binary_normalize.
  pose proof (Uint63.to_Z_bounded (Uint63.of_Z z)) as Hb.
  destruct (Uint63.to_Z (Uint63.of_Z z)) as [|p|p]; [exact eq_refl| |lia].
  unfold binary_round. destruct (shl_align _ _ _). apply nonneg_round_aux.
Qed.

(** The floor of a Number that is not negative is not negative (0
    stands for NaN and the infinities). *)
Lemma floor_nonneg x : nonneg (Prim2SF x) -> 0 <= Math_floor x.
Proof.
  unfold Math_floor. destruct (Prim2SF x) as [s|s| |s m e];
    cbv beta iota delta [nonneg]; try lia.
  intros ->. destruct (0 <=? e).
  - apply Z.shiftl_nonneg. lia.
  - apply Z.shiftr_nonneg. lia.
Qed.

Lemma nonneg_clamp x : nonneg (Prim2SF (clamp x 2 30)).
Proof.
  unfold clamp.
  destruct (x <? 2)%float eqn:L2; [exact eq_refl|].
  destruct (30 <? x)%float; [exact eq_refl|].
  rewrite FloatAxioms.ltb_spec in L2.
  change (Prim2SF 2) with (S754_finite false 4503599627370496 (-51)) in L2.
  destruct (Prim2SF x) as [[|]|[|]| |[|] m e];
    first [exact I | exact eq_refl | discriminate L2].
Qed.

Lemma duration_nonneg text : nonneg (Prim2SF (Wav.duration text)).
Proof. unfold Wav.duration. rewrite max_min_clamp. apply nonneg_clamp. Qed.

(** The sample count is never negative. *)
Lemma numSamples_nonneg text : 0 <= Wav.numSamples text.
Proof.
  apply floor_nonneg. rewrite mul_spec.
  apply nonneg_mul; [apply nonneg_ofZ; unfold Wav.sampleRate; lia|].
  apply duration_nonneg.
Qed.


(** Shifting a mantissa right keeps it non-negative. *)
Lemma shr_1_nonneg mrs : 0 <= shr_m mrs -> 0 <= shr_m (shr_1 mrs).
Proof.
  destruct mrs as [m r s]. cbn [shr_m]. intros Hm.
  destruct m as [|p|p]; [| |lia]; [|destruct p]; cbn; lia.
Qed.

Lemma iter_pos_invariant {A} (P : A -> Prop) (f : A -> A) :
  (forall x, P x -> P (f x)) ->
  forall p x, P x -> P (SpecFloat.iter_pos f p x).
Proof.
  intros Hf. induction p as [p IH|p IH|]; intros x Hx;
    cbn [SpecFloat.iter_pos]; auto.
Qed.

Lemma shr_fexp_nonneg m e l :
  0 <= m -> 0 <= shr_m (fst (shr_fexp prec emax m e l)).
Proof.
  intros Hm. unfold shr_fexp, shr.
  assert (H0 : 0 <= shr_m (shr_record_of_loc m l))
    by (destruct l as [|[| |]]; exact Hm).
  destruct (fexp prec emax (Zdigits2 m + e) - e) as [|p|p]; cbn [fst]; auto.
  apply (iter_pos_invariant (fun r => 0 <= shr_m r)); auto using shr_1_nonneg.
Qed.

Lemma round_nearest_even_nonneg m l : 0 <= m -> 0 <= round_nearest_even m l.
Proof.
  intros Hm. unfold round_nearest_even.
  destruct l as [|[| |]]; try lia. destruct (Z.even m); lia.
Qed.

(** Rounding a non-negative mantissa never yields NaN. *)
Lemma round_aux_number m e l :
  0 <= m -> positiveOrZero (binary_round_aux prec emax false m e l).
Proof.
  intros Hm. unfold binary_round_aux.
  pose proof (shr_fexp_nonneg m e l Hm) as H1.
  destruct (shr_fexp prec emax m e l) as [mrs' e']. cbn [fst] in H1.
  pose proof (shr_fexp_nonneg _ e' loc_Exact
                (round_nearest_even_nonneg _ (loc_of_shr_record mrs') H1))
    as H2.
  destruct (shr_fexp prec emax _ e' loc_Exact) as [mrs'' e'']. cbn [fst] in H2.
  destruct (shr_m mrs''); [exact eq_refl| |lia].
  destruct (e'' <=? emax - prec); exact eq_refl.
Qed.

Lemma mul_number x sy my ey :
  positiveOrZero x -> sy = false ->
  positiveOrZero (SF64mul x (S754_finite sy my ey)).
Proof.
  unfold SF64mul, SFmul. intros Hx ->.
  destruct x as [sx|sx| |sx mx ex]; cbv beta iota delta [positiveOrZero] in *;
    subst; try first [exact eq_refl | contradiction].
  apply round_aux_number. lia.
Qed.

Lemma ofZ_number z : 0 <= z -> positiveOrZero (Prim2SF (ofZ z)).
Proof.
  intros Hz. unfold ofZ. destruct (Z.ltb_spec z 0); [lia|].
  rewrite of_uint63_spec. unfold binary_normalize.
  pose proof (Uint63.to_Z_bounded (Uint63.of_Z z)) as Hb.
  destruct (Uint63.to_Z (Uint63.of_Z z)) as [|p|p]; [exact eq_refl| |lia].
  unfold binary_round. destruct (shl_align _ _ _).
  apply round_aux_number. lia.
Qed.

Lemma SFleb_positive m1 e1 m2 e2 :
  SFleb (S754_finite false m1 e1) (S754_finite false m2 e2) =
  (e1 <? e2) || (e1 =? e2) && (Z.pos m1 <=? Z.pos m2).
Proof.
  unfold SFleb, SFcompare.
  destruct (Z.compare_spec e1 e2) as [-> | Hlt | Hgt].
  - rewrite Z.ltb_irrefl, Z.eqb_refl. reflexivity.
  - apply Z.ltb_lt in Hlt. rewrite Hlt. reflexivity.
  - assert ((e1 <? e2) = false) as -> by lia.
    assert ((e1 =? e2) = false) as -> by lia.
    reflexivity.
Qed.

(** The clamp of a Number that is not NaN lies in the range. *)
Lemma clamp_range x :
  is_nan x = false ->
  (2 <=? clamp x 2 30)%float && (clamp x 2 30 <=? 30)%float = true.
Proof.
  intros Hn. unfold clamp.
  destruct (x <? 2)%float eqn:L2; [reflexivity|].
  destruct (30 <? x)%float eqn:G30; [reflexivity|].
  rewrite is_nan_spec in Hn.
  rewrite FloatAxioms.ltb_spec in L2, G30. rewrite !FloatAxioms.leb_spec.
  change (Prim2SF 2) with (S754_finite false 4503599627370496 (-51)) in *.
  change (Prim2SF 30) with (S754_finite false 8444249301319680 (-48)) in *.
  destruct (Prim2SF x) as [[|]|[|]| |[|] m e]; try discriminate.
  rewrite SFltb_positive in L2, G30. rewrite !SFleb_positive.
  revert L2 G30. bool_cases; cbn [orb andb]; intros; try discriminate;
    try reflexivity; bool_cases; cbn [orb andb]; try reflexivity; lia.
Qed.

Lemma number_not_nan x : positiveOrZero (Prim2SF x) -> is_nan x = false.
Proof.
  rewrite is_nan_spec. destruct (Prim2SF x); cbn; intros; auto; contradiction.
Qed.

(** The duration is a Number between 2 and 30, for every text. *)
Lemma duration_range text :
  (2 <=? Wav.duration text)%float && (Wav.duration text <=? 30)%float = true.
Proof.
  unfold Wav.duration. rewrite max_min_clamp. apply clamp_range.
  apply number_not_nan. rewrite mul_spec.
  change (Prim2SF 0.15) with (S754_finite false 5404319552844595 (-55)).
  apply mul_number; [apply ofZ_number; lia | reflexivity].
Qed.

End NumberFacts.

(** The sample count depends on the text through its length only. *)
Lemma numSamples_length text :
  Wav.numSamples text = numSamplesOfLength (length text).
Proof. reflexivity. Qed.

(** For texts of up to 4000 units, by evaluation of every length: the
    count lies between 2 s and 30 s of samples, and rounding to nearest would
    give the same count or one more. *)
Lemma numSamples_bounds text :
  (length text <= 4000)%nat ->
  44100 <= Wav.numSamples text <= 661500 /\
  Wav.numSamples text <= spec_sampleCount Wav.sampleRate text
    <= Wav.numSamples text + 1.
Proof.
  intros Hlen. rewrite numSamples_length. unfold spec_sampleCount.
  set (ok := fun n : nat =>
    (44100 <=? numSamplesOfLength n) && (numSamplesOfLength n <=? 661500) &&
    (numSamplesOfLength n <=?
       nearest (clamp (ofZ (Z.of_nat n) * 0.15) 2 30 * ofZ Wav.sampleRate)) &&
    (nearest (clamp (ofZ (Z.of_nat n) * 0.15) 2 30 * ofZ Wav.sampleRate) <=?
       numSamplesOfLength n + 1)).
  assert (Hall : forallb ok (seq 0 4001) = true) by (vm_compute; reflexivity).
  rewrite forallb_forall in Hall.
  assert (Hin : In (length text) (seq 0 4001)) by (apply in_seq; lia).
  specialize (Hall _ Hin). unfold ok in Hall.
  repeat (apply andb_prop in Hall as [Hall ?]). lia.
Qed.

(** C2, as it stands, fails on the text of its own scenario: the text has
    18 units, not 19, so the duration is 18 * 0.15 (2.6999999999999997 in
    binary64) and not 2.85; the count is the floor, 59534, of
    59534.999999999993, neither 62842 nor the integer that any rounding
    to nearest gives, 59535. *)
Lemma C2_counterexample :
  length hello = 18%nat /\
  Wav.duration hello = 2.6999999999999997%float /\
  Wav.duration hello <> 2.85%float /\
  (ofZ Wav.sampleRate * Wav.duration hello = 59534.999999999993)%float /\
  Wav.numSamples hello = 59534 /\
  Wav.numSamples hello <> 62842 /\
  spec_sampleCount Wav.sampleRate hello = 59535 /\
  Wav.numSamples hello <> spec_sampleCount Wav.sampleRate hello.
Proof.
  assert (D : Wav.duration hello = 2.6999999999999997%float)
    by (vm_compute; reflexivity).
  assert (N : Wav.numSamples hello = 59534) by (vm_compute; reflexivity).
  assert (S : spec_sampleCount Wav.sampleRate hello = 59535)
    by (vm_compute; reflexivity).
  split; [reflexivity|].
  split; [exact D|].
  split; [rewrite D; apply NumberFacts.float_neq; vm_compute; discriminate|].
  split; [vm_compute; reflexivity|].
  split; [exact N|].
  split; [rewrite N; discriminate|].
  split; [exact S|].
  rewrite N, S. discriminate.
Qed.

(** C2 (amended).  For every text the duration is
    clamp(length * 0.15, 2, 30), a Number between 2 and 30, and the
    sample count is the floor of sampleRate * duration, with
    sampleRate = 22050, which is never negative; for
    "Hello there friend" these are 2.6999999999999997 s and 59534. *)
Theorem C2_duration_clamped_count_floored (text : jsstring) :
  Wav.duration text = clamp (ofZ (Z.of_nat (length text)) * 0.15) 2 30 /\
  (2 <=? Wav.duration text)%float && (Wav.duration text <=? 30)%float = true /\
  Wav.numSamples text = Math_floor (22050 * Wav.duration text) /\
  0 <= Wav.numSamples text /\
  Wav.duration hello = 2.6999999999999997%float /\
  Wav.numSamples hello = 59534.
Proof.
  split; [apply NumberFacts.max_min_clamp|].
  split; [apply NumberFacts.duration_range|].
  split; [reflexivity|].
  split; [apply NumberFacts.numSamples_nonneg|].
  split; vm_compute; reflexivity.
Qed.

(** * The container: header and samples *)

Module BufferFacts.

Lemma length_bytesLE n v : length (bytesLE n v) = n.
Proof. revert v. induction n; intros; simpl; auto. Qed.

(** The [n] low bytes, read back, give the value modulo 2^(8n). *)
Lemma fromLE_bytesLE n : forall v,
  fromLE (bytesLE n v) = v mod 2 ^ (8 * Z.of_nat n).
Proof.
  induction n as [|n IH]; intros v.
  - cbn. symmetry. apply Z.mod_1_r.
  - cbn [bytesLE fromLE foldr]. fold (fromLE (bytesLE n (Z.shiftr v 8))).
    rewrite IH. change 255 with (Z.ones 8). rewrite Z.land_ones by lia.
    rewrite Z.shiftr_div_pow2 by lia.
    replace (8 * Z.of_nat (S n)) with (8 + 8 * Z.of_nat n) by lia.
    rewrite Z.pow_add_r by lia. rewrite Z.rem_mul_r by lia. reflexivity.
Qed.

Lemma store_Some off bs b :
  0 <= off -> off + Z.of_nat (length bs) <= Z.of_nat (length b) ->
  store off bs b =
  Some (take (Z.to_nat off) b ++ bs ++ drop (Z.to_nat off + length bs) b).
Proof.
  intros H1 H2. unfold store.
  destruct (Z.leb_spec 0 off); [|lia].
  destruct (Z.leb_spec (off + Z.of_nat (length bs)) (Z.of_nat (length b)));
    [|lia].
  reflexivity.
Qed.

Lemma store_inv off bs b b' :
  store off bs b = Some b' ->
  0 <= off /\ off + Z.of_nat (length bs) <= Z.of_nat (length b) /\
  b' = take (Z.to_nat off) b ++ bs ++ drop (Z.to_nat off + length bs) b.
Proof.
  unfold store.
  destruct (Z.leb_spec 0 off); [|discriminate].
  destruct (Z.leb_spec (off + Z.of_nat (length bs)) (Z.of_nat (length b)));
    [|discriminate].
  cbn. intros [= <-]. auto.
Qed.

Lemma store_length off bs b b' :
  store off bs b = Some b' -> length b' = length b.
Proof.
  intros (H1 & H2 & ->)%store_inv.
  rewrite !length_app, length_take, length_drop. lia.
Qed.

Lemma local_store off bs : local (store off bs).
Proof.
  intros pre rest pre' Hs. split; [|eapply store_length; eauto].
  apply store_inv in Hs as (H1 & H2 & ->).
  rewrite store_Some by (rewrite ?length_app; lia).
  f_equal. rewrite take_app_le by lia. rewrite drop_app_le by lia.
  rewrite <- !app_assoc. reflexivity.
Qed.

Lemma local_bind w1 w2 :
  local w1 -> local w2 -> local (fun b => w1 b ≫= w2).
Proof.
  intros L1 L2 pre rest pre'. cbn.
  destruct (w1 pre) as [p1|] eqn:E1; cbn; [|discriminate].
  intros E2. destruct (L1 _ rest _ E1) as [-> Hl1]. cbn.
  destruct (L2 _ rest _ E2) as [-> Hl2]. split; [reflexivity | congruence].
Qed.

Lemma local_writeString s : forall off, local (Wav.writeString off s).
Proof.
  induction s as [|c s IH]; intros off.
  - intros pre rest pre' [= <-]. auto.
  - cbn [Wav.writeString].
    apply (local_bind (setUint8 off c)); [apply local_store | apply IH].
Qed.

Lemma local_writeHeader n : local (Wav.writeHeader n).
Proof.
  unfold Wav.writeHeader.
  repeat (apply (local_bind _ (fun v => _));
          [first [apply local_writeString | apply local_store] |]).
  apply local_store.
Qed.

(** The thirteen writes of lines 167-179 on 44 zero bytes. *)
Lemma writeHeader_zeros n :
  0 <= n -> 36 + n * 2 < 4294967296 ->
  Wav.writeHeader n (replicate 44 0) =
  Some (canonicalHeader Wav.sampleRate 1 (n * 2)).
Proof.
  intros Hn Hlt. unfold Wav.writeHeader, setUint32, setUint16.
  assert (E1 : ToUint32 (36 + n * 2) = 36 + n * 2)
    by (apply Z.mod_small; lia).
  assert (E2 : ToUint32 (n * 2) = n * 2) by (apply Z.mod_small; lia).
  rewrite E1, E2. reflexivity.
Qed.

(** The loop, started where the bytes written so far end. *)
Lemma writeSamples_zeros value count : forall i pre k,
  Wav.writeSamples value count i (Z.of_nat (length pre))
    (pre ++ replicate (2 * count + k) 0) =
  Some (pre ++ concat (int16LE value <$> seqZ i (Z.of_nat count)) ++
        replicate k 0).
Proof.
  induction count as [|count IH]; intros i pre k.
  - reflexivity.
  - cbn [Wav.writeSamples]. unfold setInt16. cbn [bytesOf].
    replace (2 * S count + k)%nat with (S (S (2 * count + k))) by lia.
    cbn [replicate].
    rewrite store_Some
      by (rewrite ?length_app, ?length_bytesLE; cbn [length]; lia).
    rewrite Nat2Z.id, take_app_length, length_bytesLE.
    rewrite drop_app_add'; [|reflexivity]. cbn [drop mbind option_bind].
    specialize
      (IH (i + 1) (pre ++ bytesLE 2 (ToUint16 (truncate (value i)))) k).
    rewrite length_app, length_bytesLE in IH.
    replace (Z.of_nat (length pre) + 2) with (Z.of_nat (length pre + 2))
      by lia.
    rewrite <- app_assoc in IH.
    change (Wav.writeSamples value count (i + 1)
              (Z.of_nat (length pre + 2))
              (pre ++ bytesLE 2 (ToUint16 (truncate (value i))) ++
               replicate (2 * count + k) 0) =
            Some (pre ++
                  concat (int16LE value <$> seqZ i (Z.of_nat (S count))) ++
                  replicate k 0)).
    rewrite IH. rewrite (seqZ_cons i) by lia.
    rewrite fmap_cons. cbn [concat].
    replace (Z.pred (Z.of_nat (S count))) with (Z.of_nat count) by lia.
    replace (Z.succ i) with (i + 1) by lia.
    unfold int16LE at 2. rewrite <- !app_assoc. reflexivity.
Qed.

Lemma load_app_l off n pre rest :
  0 <= off -> off + Z.of_nat n <= Z.of_nat (length pre) ->
  load off n (pre ++ rest) = Some (take n (drop (Z.to_nat off) pre)).
Proof.
  intros H1 H2. unfold load.
  destruct (Z.leb_spec 0 off); [|lia]. rewrite length_app.
  destruct (Z.leb_spec (off + Z.of_nat n)
              (Z.of_nat (length pre + length rest))); [|lia].
  cbn [andb]. f_equal. rewrite drop_app_le by lia.
  rewrite take_app_le; [reflexivity|]. rewrite length_drop. lia.
Qed.

Lemma load_app_r off n pre rest :
  Z.of_nat (length pre) <= off ->
  load off n (pre ++ rest) = load (off - Z.of_nat (length pre)) n rest.
Proof.
  intros H1. unfold load. rewrite length_app.
  destruct (Z.leb_spec 0 off); [|lia].
  destruct (Z.leb_spec 0 (off - Z.of_nat (length pre))); [|lia].
  cbn [andb].
  destruct (Z.leb_spec (off + Z.of_nat n)
              (Z.of_nat (length pre + length rest)));
  destruct (Z.leb_spec (off - Z.of_nat (length pre) + Z.of_nat n)
              (Z.of_nat (length rest))); try lia; [|reflexivity].
  f_equal. rewrite drop_app_ge by lia. do 2 f_equal. lia.
Qed.

(** The k-th two-byte piece of the sample bytes. *)
Lemma load_sample (f : Z -> list Z) :
  (forall x, length (f x) = 2%nat) ->
  forall count m k, (k < count)%nat ->
  load (2 * Z.of_nat k) 2 (concat (f <$> seqZ m (Z.of_nat count))) =
  Some (f (m + Z.of_nat k)).
Proof.
  intros Hf. induction count as [|count IH]; intros m k Hk; [lia|].
  rewrite (seqZ_cons m) by lia. rewrite fmap_cons. cbn [concat].
  replace (Z.pred (Z.of_nat (S count))) with (Z.of_nat count) by lia.
  destruct k as [|k].
  - rewrite load_app_l by (rewrite ?Hf; lia).
    change (Z.to_nat (2 * Z.of_nat 0)) with 0%nat.
    rewrite drop_0, take_ge by (rewrite Hf; lia).
    do 2 f_equal. lia.
  - rewrite load_app_r by (rewrite Hf; lia). rewrite Hf.
    replace (2 * Z.of_nat (S k) - Z.of_nat 2) with (2 * Z.of_nat k) by lia.
    replace (Z.succ m) with (m + 1) by lia.
    rewrite IH by lia. do 2 f_equal. lia.
Qed.

Lemma ToInt16_ToUint16 v : ToInt16 (ToUint16 v) = ToInt16 v.
Proof. unfold ToInt16, ToUint16. rewrite Z.mod_mod by lia. reflexivity. Qed.

Lemma ToInt16_range v : -32768 <= ToInt16 v <= 32767.
Proof.
  unfold ToInt16. pose proof (Z.mod_pos_bound v 65536 ltac:(lia)).
  destruct (Z.ltb_spec (v mod 65536) 32768); lia.
Qed.

Section Encode.
Context `{Host}.

(** The whole buffer: header, then every sample. *)
Lemma encode_bytes n value :
  0 <= n -> 36 + n * 2 < 4294967296 -> allocates (44 + n * 2) = true ->
  Wav.encode n value =
  Some (canonicalHeader Wav.sampleRate 1 (n * 2) ++
        concat (int16LE value <$> seqZ 0 n)).
Proof.
  intros Hn Hlt Ha. unfold Wav.encode, Wav.new_ArrayBuffer.
  rewrite Ha. destruct (Z.leb_spec 0 (44 + n * 2)); [|lia].
  cbn [andb mbind option_bind].
  replace (Z.to_nat (44 + n * 2)) with (44 + (2 * Z.to_nat n + 0))%nat
    by lia.
  rewrite replicate_add.
  destruct (local_writeHeader n (replicate 44 0)
              (replicate (2 * Z.to_nat n + 0) 0) _
              (writeHeader_zeros n Hn Hlt)) as [-> _].
  cbn [mbind option_bind].
  pose proof (writeSamples_zeros value (Z.to_nat n) 0
                (canonicalHeader Wav.sampleRate 1 (n * 2)) 0) as W.
  change (Z.of_nat (length (canonicalHeader Wav.sampleRate 1 (n * 2))))
    with 44 in W.
  rewrite W, Z2Nat.id by lia. cbn [replicate]. rewrite app_nil_r.
  reflexivity.
Qed.

(** The generator itself, for texts of up to 4000 units: when the buffer is
    allocated the body of [try] does not throw, and the Blob is the
    canonical header followed by the clamped samples. *)
Lemma tryGenerate_bytes text :
  (length text <= 4000)%nat ->
  allocates (44 + Wav.numSamples text * 2) = true ->
  Wav.tryGenerate text =
  Some (canonicalHeader Wav.sampleRate 1 (Wav.numSamples text * 2) ++
        concat (int16LE (Wav.clamped text) <$> seqZ 0 (Wav.numSamples text))).
Proof.
  intros Hlen Ha. destruct (numSamples_bounds text Hlen) as [Hb _].
  apply encode_bytes; [lia | lia | exact Ha].
Qed.

End Encode.

(** Reading a canonical header back. *)
Lemma decode_header d rest :
  0 <= d -> 36 + d < 4294967296 ->
  Wav.decode (canonicalHeader 22050 1 d ++ rest) =
  Some {| Wav.audioFormat := 1; Wav.channels := 1; Wav.rate := 22050;
          Wav.byteRate := 22050 * 1 * 2; Wav.blockAlign := 1 * 2;
          Wav.bitsPerSample := 16; Wav.dataBytes := d;
          Wav.riffSize := 36 + d |}.
Proof.
  intros Hd Hlt.
  unfold Wav.decode, Wav.tagAt, getUint32, getUint16.
  rewrite !load_app_l
    by (change (length (canonicalHeader 22050 1 d)) with 44%nat; lia).
  change (take 4 (drop (Z.to_nat 4) (canonicalHeader 22050 1 d)))
    with (bytesLE 4 (36 + d)).
  change (take 4 (drop (Z.to_nat 40) (canonicalHeader 22050 1 d)))
    with (bytesLE 4 d).
  cbn [fmap option_fmap option_map]. rewrite !fromLE_bytesLE.
  rewrite !Z.mod_small by lia.
  reflexivity.
Qed.

End BufferFacts.

(** C3.  For every sample sequence the encoder's buffer starts with the
    canonical 44-byte header (sample rate 22050, one channel, 16 bits,
    dataBytes = 2 * number of samples) and continues with the samples as
    little-endian int16; the header decodes to those values, and each
    sample reads back as a 16-bit signed integer.  The sizes are uint32
    fields, so the data must fit one, and the buffer must be
    allocated. *)
Theorem C3_header_canonical_and_decodes `{Host}
    (numSamples : Z) (value : Z -> float) :
  0 <= numSamples -> 36 + numSamples * 2 < 2 ^ 32 ->
  allocates (44 + numSamples * 2) = true ->
  exists buffer,
    Wav.encode numSamples value = Some buffer /\
    Z.of_nat (length buffer) = 44 + numSamples * 2 /\
    take 44 buffer = canonicalHeader 22050 1 (2 * numSamples) /\
    drop 44 buffer = concat (int16LE value <$> seqZ 0 numSamples) /\
    Wav.decode buffer =
      Some {| Wav.audioFormat := 1; Wav.channels := 1; Wav.rate := 22050;
              Wav.byteRate := 22050 * 1 * 2; Wav.blockAlign := 1 * 2;
              Wav.bitsPerSample := 16; Wav.dataBytes := 2 * numSamples;
              Wav.riffSize := 36 + 2 * numSamples |} /\
    forall i, 0 <= i < numSamples ->
      getInt16 (44 + 2 * i) buffer = Some (ToInt16 (truncate (value i))) /\
      -32768 <= ToInt16 (truncate (value i)) <= 32767.
Proof.
  intros Hn Hlt Ha. change (2 ^ 32) with 4294967296 in Hlt.
  eexists. split; [apply BufferFacts.encode_bytes; assumption|].
  change Wav.sampleRate with 22050.
  replace (numSamples * 2) with (2 * numSamples) by lia.
  set (hdr := canonicalHeader 22050 1 (2 * numSamples)).
  set (body := concat (int16LE value <$> seqZ 0 numSamples)).
  assert (Hh : length hdr = 44%nat) by reflexivity.
  assert (Hb : length body = (2 * Z.to_nat numSamples)%nat).
  { unfold body. clear -Hn. rewrite <- (Z2Nat.id numSamples) at 1 by lia.
    generalize 0 as m. induction (Z.to_nat numSamples) as [|k IH]; intros m.
    - reflexivity.
    - rewrite (seqZ_cons m) by lia. rewrite fmap_cons. cbn [concat].
      rewrite length_app.
      replace (Z.pred (Z.of_nat (S k))) with (Z.of_nat k) by lia.
      rewrite IH. unfold int16LE. rewrite BufferFacts.length_bytesLE. lia. }
  split; [rewrite length_app, Hh, Hb; lia|].
  split; [rewrite take_app_length'; [reflexivity | exact Hh]|].
  split; [rewrite drop_app_length'; [reflexivity | exact Hh]|].
  split; [apply BufferFacts.decode_header; lia|].
  intros i Hi. split; [|apply BufferFacts.ToInt16_range].
  unfold getInt16, getUint16.
  rewrite BufferFacts.load_app_r by (rewrite Hh; lia). rewrite Hh.
  replace (44 + 2 * i - Z.of_nat 44) with (2 * Z.of_nat (Z.to_nat i)) by lia.
  unfold body. rewrite <- (Z2Nat.id numSamples) by lia.
  rewrite (BufferFacts.load_sample (int16LE value))
    by (intros; try apply BufferFacts.length_bytesLE; lia).
  cbn [fmap option_fmap option_map]. unfold int16LE.
  rewrite BufferFacts.fromLE_bytesLE.
  change (2 ^ (8 * Z.of_nat 2)) with 65536.
  rewrite Z.add_0_l, Z2Nat.id by lia.
  f_equal. unfold ToUint16. rewrite Z.mod_mod by lia.
  fold (ToUint16 (truncate (value i))). apply BufferFacts.ToInt16_ToUint16.
Qed.

(** C3 at a buffer of two samples, -2.7 and 300.9. *)
Lemma C3_witness :
  exists buffer,
    Wav.encode (H := quietHost) 2
      (fun i => if i =? 0 then (-2.7)%float else 300.9%float) = Some buffer /\
    Z.of_nat (length buffer) = 44 + 2 * 2 /\
    take 44 buffer = canonicalHeader 22050 1 (2 * 2) /\
    drop 44 buffer =
      concat (int16LE (fun i => if i =? 0 then (-2.7)%float else 300.9%float)
                <$> seqZ 0 2) /\
    Wav.decode buffer =
      Some {| Wav.audioFormat := 1; Wav.channels := 1; Wav.rate := 22050;
              Wav.byteRate := 22050 * 1 * 2; Wav.blockAlign := 1 * 2;
              Wav.bitsPerSample := 16; Wav.dataBytes := 2 * 2;
              Wav.riffSize := 36 + 2 * 2 |} /\
    forall i, 0 <= i < 2 ->
      getInt16 (44 + 2 * i) buffer =
        Some (ToInt16
                (truncate (if i =? 0 then (-2.7)%float else 300.9%float))) /\
      -32768 <=
        ToInt16 (truncate (if i =? 0 then (-2.7)%float else 300.9%float))
        <= 32767.
Proof.
  apply (C3_header_canonical_and_decodes (H := quietHost) 2
           (fun i => if i =? 0 then (-2.7)%float else 300.9%float)).
  - lia.
  - reflexivity.
  - reflexivity.
Defined.

(** * The orchestration *)

Module AppFacts.
Import App.

(** Evaluation of a handler on a state whose fields are known. *)
Ltac run :=
  lazy beta iota zeta delta
    [mbind M_bind bind get modify host ret throw try_catch result after made
     stop speak speakText pause resume handleClear downloadAudio releaseAudioUrl
     setupAudioRecording utterance_onstart
     utterance_onend utterance_onerror mediaRecorder_onstop
     mediaRecorder_ondataavailable deliver_start deliver_completion
     deliver_recorder_stop finish
     synth_cancel_op recorder_start_op recorder_stop_op
     setText setIsSpeaking setIsPaused setAudioUrl setIsProcessing
     setIsRecording setRecordingError set_synth_speaking set_mediaRecorder
     set_audioChunks set_stream set_utterance set_spokenText
     set_recordingReady set_recordingStarted set_stopEventPending
     text isSpeaking selectedVoice rate pitch volume isPaused audioUrl
     isProcessing isRecording recordingError synth_speaking mediaRecorder
     audioChunks stream utterance spokenText recordingReady recordingStarted
     stopEventPending media speechThrows inState andb orb negb];
  cbn [app].

Section WithHost.
Context `{Host}.

(** The promise of [generateHighQualityAudio] is never rejected. *)
Lemma generate_resolves t :
  Wav.generateHighQualityAudio t = Resolved (synthesized t).
Proof.
  unfold Wav.generateHighQualityAudio, synthesized.
  destruct (Wav.tryGenerate t); reflexivity.
Qed.

Lemma fallback_spec s :
  generateFallbackAudio s =
  {| result := Some tt;
     after := setAudioUrl (Some (synthesized (spokenText s))) s;
     made := [createObjectURL (synthesized (spokenText s))] |}.
Proof.
  destruct s. unfold generateFallbackAudio. run.
  rewrite generate_resolves. run. reflexivity.
Qed.

End WithHost.

(** Chunks are appended in arrival order; empty ones are dropped. *)
Lemma deliver_data_spec chunks : forall s,
  deliver_data chunks s =
  {| result := Some tt;
     after := set_audioChunks (audioChunks s ++ List.filter nonempty chunks) s;
     made := [] |}.
Proof.
  induction chunks as [|d chunks IH]; intros s.
  - destruct s. cbn [deliver_data List.filter]. run.
    rewrite app_nil_r. reflexivity.
  - cbn [deliver_data List.filter]. unfold mbind, M_bind, bind.
    unfold mediaRecorder_ondataavailable, nonempty.
    destruct (0 <? length d)%nat.
    + run. rewrite IH. destruct s. run.
      rewrite <- app_assoc. reflexivity.
    + run. rewrite IH. destruct s. run. reflexivity.
Qed.

(** After [stop] the engine no longer speaks, whatever the recorder
    does. *)
Lemma stop_silences t s : synth_speaking (after (stop t s)) = false.
Proof.
  destruct s as [? ? ? ? ? ? ? ? ? ? ? sp rec ? ? ? ? ? ? ?].
  destruct sp, rec as [[| |]|], t; reflexivity.
Qed.

(** [stop] on a page whose engine does not speak does nothing. *)
Lemma stop_idle t s :
  synth_speaking s = false -> stop t s = ret tt s.
Proof.
  intros E. destruct s. cbn [synth_speaking] in E. subst. reflexivity.
Qed.


(** Outcomes are computed once, into the state and the calls they name. *)
Ltac outcome tac :=
  (eexists _, _; split; [run; tac; run; reflexivity|]); repeat split.

Ltac finished := outcome ltac:(rewrite ?fallback_spec).

Section Attempt.
Context `{Host}.

(** What [speak] leaves behind when the text is not blank. *)
Lemma speak_starts (s : state) (o : speakOracle) :
  trim (text s) <> [] -> speechThrows o = false ->
  exists s' calls,
    speak o s = {| result := Some tt; after := s'; made := calls |} /\
    spokenText s' = text s /\
    audioUrl s' = None /\
    isProcessing s' = true /\
    recordingReady s' = captureReady (media o) /\
    recordingStarted s' = false /\
    audioChunks s' = [] /\
    mediaRecorder s' =
      (if captureReady (media o) then Some inactive else mediaRecorder s) /\
    stopEventPending s' = stopEventPending s.
Proof.
  intros Ht Ho. destruct o as [m th]. cbn [speechThrows] in Ho. subst th.
  destruct s as [t ? ? ? ? ? ? url ? ? ? sp ? ? ? ? ? ? ? ?].
  cbn [text] in Ht. unfold speak.
  unfold mbind at 1, M_bind at 1, bind at 1.
  cbn [get ret result after made text app].
  rewrite bool_decide_false by exact Ht.
  destruct sp, url as [b|], m as [| |[|]];
    (eexists _, _; split; [run; reflexivity|]); repeat split.
Qed.

(** What the engine's start event leaves behind. *)
Lemma start_outcome (s : state) (startThrows : bool) :
  exists s' calls,
    deliver_start startThrows s =
      {| result := Some tt; after := s'; made := calls |} /\
    recordingStarted s' =
      (if recordingReady s && inState inactive (mediaRecorder s)
       then negb startThrows else recordingStarted s) /\
    mediaRecorder s' =
      (if captureStarts startThrows s then Some recording
       else mediaRecorder s) /\
    isSpeaking s' = true /\ synth_speaking s' = true /\
    spokenText s' = spokenText s /\ audioChunks s' = audioChunks s /\
    audioUrl s' = audioUrl s /\
    stopEventPending s' = stopEventPending s.
Proof.
  unfold captureStarts.
  destruct s as [? ? ? ? ? ? ? ? ? ? ? sp rec ch live ? ? ready started pend].
  destruct ready, rec as [[| |]|], startThrows;
    (eexists _, _; split; [run; reflexivity|]); repeat split.
Qed.

(** What the completion of the utterance leaves behind. *)
Lemma finish_outcome (s : state) c stopThrows lastData :
  stopEventPending s = false ->
  exists s' calls,
    finish c stopThrows lastData s =
      {| result := Some tt; after := s'; made := calls |} /\
    audioUrl s' =
      Some (if stoppedCapture c stopThrows s
            then capturedBlob (audioChunks s ++ List.filter nonempty lastData)
            else synthesized (spokenText s)) /\
    isSpeaking s' = false /\ isProcessing s' = false /\
    synth_speaking s' = false /\ stopEventPending s' = false.
Proof.
  intros Hp. unfold stoppedCapture.
  destruct s as [? ? ? ? ? ? ? ? ? ? ? sp rec ch live ? ? ? started pend].
  cbn [stopEventPending] in Hp. subst pend.
  destruct c; [|finished].
  destruct started; [|finished].
  destruct rec as [[| |]|]; [finished| |finished|finished].
  destruct stopThrows; [finished|].
  destruct live;
    (eexists _, _;
     split; [run; rewrite deliver_data_spec; run; reflexivity|]);
    repeat split.
Qed.

(** A whole attempt, from [speak] on any page with a non-blank text whose
    recorder owes no stop event: the captured audio is the artifact when
    capture was armed, started and stopped, the synthesized audio of the
    text otherwise. *)
Lemma attempt_artifact (s : state) o startThrows c stopThrows lastData :
  trim (text s) <> [] -> speechThrows o = false ->
  stopEventPending s = false ->
  result (attempt o startThrows c stopThrows lastData s) = Some tt /\
  audioUrl (after (attempt o startThrows c stopThrows lastData s)) =
    Some (if captureReady (media o) && negb startThrows &&
             match c with ended => true | errored => false end &&
             negb stopThrows
          then capturedBlob (List.filter nonempty lastData)
          else synthesized (text s)).
Proof.
  intros Ht Ho Hp.
  destruct (speak_starts s o Ht Ho)
    as (s1 & calls1 & E1 & Htext & _ & _ & Hready & Hstarted & Hchunks &
        Hrec & Hpend).
  destruct (start_outcome s1 startThrows)
    as (s2 & calls2 & E2 & Hstarted2 & Hrec2 & _ & _ & Htext2 & Hchunks2 &
        _ & Hpend2).
  destruct (finish_outcome s2 c stopThrows lastData)
    as (s3 & calls3 & E3 & Hurl & _); [congruence|].
  unfold attempt, mbind, M_bind, bind.
  rewrite E1. cbn [result after made]. rewrite E2. cbn [result after made].
  rewrite E3. cbn [result after made]. split; [reflexivity|].
  rewrite Hurl. f_equal. unfold stoppedCapture, captureStarts in *.
  rewrite Hstarted2, Hrec2, Hready, Hrec, Hstarted, Htext2, Htext, Hchunks2,
    Hchunks.
  destruct (captureReady (media o)), startThrows, c, stopThrows;
    try reflexivity; cbn [andb negb inState];
    destruct (recordingReady s1 && inState inactive (mediaRecorder s));
    reflexivity.
Qed.

End Attempt.

End AppFacts.

(** C1.  An attempt that completes through the engine's end or error
    event ends with exactly one current artifact: the captured one when
    capture was recording and the handler stopped it, the synthesized one
    (generator and encoder applied to the text of the request) otherwise;
    the slot is never left empty and no exception escapes.  The recorder
    owes no earlier stop event when the completion arrives. *)
Theorem C1_attempt_ends_with_one_artifact `{Host}
    (s : App.state) (c : App.completion) (stopThrows : bool)
    (lastData : list (list Z)) :
  App.stopEventPending s = false ->
  App.result (App.finish c stopThrows lastData s) = Some tt /\
  App.audioUrl (App.after (App.finish c stopThrows lastData s)) =
    Some (if stoppedCapture c stopThrows s
          then App.capturedBlob
                 (App.audioChunks s ++ List.filter nonempty lastData)
          else synthesized (App.spokenText s)).
Proof.
  intros Hp.
  destruct (AppFacts.finish_outcome s c stopThrows lastData Hp)
    as (s' & calls & E & Hurl & _).
  rewrite E. split; [reflexivity | exact Hurl].
Qed.

(** C1 on the page that speaks and records "Hi": the utterance ends, the
    recorder delivers three more bytes and stops. *)
Lemma C1_witness :
  App.result (App.finish (H := quietHost) App.ended false [[4; 5; 6]]
                capturing) = Some tt /\
  App.audioUrl (App.after (App.finish (H := quietHost) App.ended false
                             [[4; 5; 6]] capturing)) =
    Some (if stoppedCapture App.ended false capturing
          then App.capturedBlob
                 (App.audioChunks capturing ++ List.filter nonempty [[4; 5; 6]])
          else synthesized (H := quietHost) (App.spokenText capturing)).
Proof.
  apply (C1_attempt_ends_with_one_artifact (H := quietHost)
           capturing App.ended false [[4; 5; 6]]).
  reflexivity.
Defined.

(** C4, as it stands, fails: on the page that speaks and records, the
    recorder that [stop] stops delivers its stop event, and its handler
    installs the captured audio as the current artifact. *)
Lemma C4_counterexample :
  App.synth_speaking capturing = true /\
  App.mediaRecorder capturing = Some App.recording /\
  App.audioUrl capturing = None /\
  App.audioUrl
    (App.after (App.deliver_recorder_stop []
       (App.after (App.stop false capturing)))) =
    Some {| blob_bytes := [1; 2; 3]; blob_type := "audio/webm" |} /\
  App.audioUrl
    (App.after (App.deliver_recorder_stop []
       (App.after (App.stop false capturing)))) <> None.
Proof.
  assert (E : App.audioUrl
    (App.after (App.deliver_recorder_stop []
       (App.after (App.stop false capturing)))) =
    Some {| blob_bytes := [1; 2; 3]; blob_type := "audio/webm" |})
    by (vm_compute; reflexivity).
  split; [vm_compute; reflexivity|].
  split; [vm_compute; reflexivity|].
  split; [vm_compute; reflexivity|].
  split; [exact E|]. rewrite E. discriminate.
Qed.

(** C4 (amended).  When the user calls stop() while the engine speaks and
    capture is recording, the engine is cancelled and the recorder
    stopped, the speaking, paused and processing flags are cleared at
    once (no finalizing handler runs inside stop()), and stop() leaves
    the artifact slot as it was; when the recorder then delivers its stop
    event, the captured audio becomes the current artifact. *)
Theorem C4_stop_while_recording
    (s : App.state) (lastData : list (list Z)) :
  App.synth_speaking s = true ->
  App.mediaRecorder s = Some App.recording ->
  App.result (App.stop false s) = Some tt /\
  App.made (App.stop false s) = [App.synth_cancel; App.recorder_stop] /\
  App.isSpeaking (App.after (App.stop false s)) = false /\
  App.isPaused (App.after (App.stop false s)) = false /\
  App.isProcessing (App.after (App.stop false s)) = false /\
  App.synth_speaking (App.after (App.stop false s)) = false /\
  App.mediaRecorder (App.after (App.stop false s)) = Some App.inactive /\
  App.stopEventPending (App.after (App.stop false s)) = true /\
  App.audioUrl (App.after (App.stop false s)) = App.audioUrl s /\
  App.audioUrl
    (App.after (App.deliver_recorder_stop lastData
       (App.after (App.stop false s)))) =
    Some (App.capturedBlob
            (App.audioChunks s ++ List.filter nonempty lastData)).
Proof.
  intros Hs Hr.
  destruct s as [? ? ? ? ? ? ? ? ? ? ? sp rec ch live ? ? ? ? ?].
  cbn [App.synth_speaking App.mediaRecorder] in Hs, Hr. subst sp rec.
  AppFacts.run. repeat (split; [reflexivity|]).
  rewrite AppFacts.deliver_data_spec. AppFacts.run.
  destruct live; reflexivity.
Qed.

(** C4 (amended) on the page that speaks and records "Hi", whose
    recorder delivers three more bytes when it is stopped. *)
Lemma C4_witness :
  App.result (App.stop false capturing) = Some tt /\
  App.made (App.stop false capturing) =
    [App.synth_cancel; App.recorder_stop] /\
  App.isSpeaking (App.after (App.stop false capturing)) = false /\
  App.isPaused (App.after (App.stop false capturing)) = false /\
  App.isProcessing (App.after (App.stop false capturing)) = false /\
  App.synth_speaking (App.after (App.stop false capturing)) = false /\
  App.mediaRecorder (App.after (App.stop false capturing)) =
    Some App.inactive /\
  App.stopEventPending (App.after (App.stop false capturing)) = true /\
  App.audioUrl (App.after (App.stop false capturing)) =
    App.audioUrl capturing /\
  App.audioUrl
    (App.after (App.deliver_recorder_stop [[4; 5; 6]]
       (App.after (App.stop false capturing)))) =
    Some (App.capturedBlob
            (App.audioChunks capturing ++ List.filter nonempty [[4; 5; 6]])).
Proof.
  apply (C4_stop_while_recording capturing [[4; 5; 6]]); reflexivity.
Defined.




(** C6.  stop() is idempotent: a second call in succession raises no
    error, makes no host call and changes nothing, whatever the recorder
    does; called when the engine does not speak it is a no-op; and the
    first call raises no error when the recorder's stop() does not
    throw. *)
Theorem C6_stop_idempotent (s : App.state) (t1 t2 : bool) :
  App.stop t2 (App.after (App.stop t1 s)) =
    {| App.result := Some tt; App.after := App.after (App.stop t1 s);
       App.made := [] |} /\
  App.stop t1 (App.set_synth_speaking false s) =
    {| App.result := Some tt; App.after := App.set_synth_speaking false s;
       App.made := [] |} /\
  App.result (App.stop false s) = Some tt.
Proof.
  split; [|split].
  - apply (AppFacts.stop_idle t2). apply AppFacts.stop_silences.
  - apply (AppFacts.stop_idle t1). destruct s; reflexivity.
  - destruct s as [? ? ? ? ? ? ? ? ? ? ? sp rec ? ? ? ? ? ? ?].
    destruct sp, rec as [[| |]|]; reflexivity.
Qed.




(** C9.  When the text is empty or blank after trimming, speak only
    alerts the user: the state (artifact included) is unchanged, and
    neither the speech engine nor the capture device is called. *)
Theorem C9_blank_text_is_refused `{Host}
    (s : App.state) (o : App.speakOracle) :
  trim (App.text s) = [] ->
  App.speak o s =
    {| App.result := Some tt; App.after := s;
       App.made := [App.alert "Please enter some text to speak."] |}.
Proof.
  intros E. destruct s. cbn [App.text] in E. unfold App.speak.
  unfold mbind at 1, App.M_bind at 1, App.bind at 1.
  cbn [App.get App.ret App.result App.after App.made App.text app].
  rewrite bool_decide_true by exact E. reflexivity.
Qed.

(** C9 on a page that holds an artifact and whose text is three blanks. *)
Lemma C9_witness :
  App.speak (H := quietHost) microphone
    (App.setText (str "   ")
       (App.setAudioUrl (Some (App.capturedBlob [[1; 2; 3]])) App.initial)) =
    {| App.result := Some tt;
       App.after :=
         App.setText (str "   ")
           (App.setAudioUrl (Some (App.capturedBlob [[1; 2; 3]]))
              App.initial);
       App.made := [App.alert "Please enter some text to speak."] |}.
Proof.
  apply (C9_blank_text_is_refused (H := quietHost)
           (App.setText (str "   ")
              (App.setAudioUrl (Some (App.capturedBlob [[1; 2; 3]]))
                 App.initial)) microphone).
  reflexivity.
Defined.

(** C10.  downloadAudio without a current artifact only shows an
    advisory message: no exception, no other host call, and the state is
    unchanged. *)
Theorem C10_download_without_artifact
    (s : App.state) (now : Z) (clickThrows : bool) :
  App.audioUrl s = None ->
  App.downloadAudio now clickThrows s =
    {| App.result := Some tt; App.after := s;
       App.made :=
         [App.alert
            "No audio available to download. Please generate speech first."] |}.
Proof.
  intros E. destruct s. cbn [App.audioUrl] in E. subst. reflexivity.
Qed.

(** C10 on the page that speaks and records "Hi": it holds no artifact
    yet. *)
Lemma C10_witness :
  App.downloadAudio 1700000000000 false speakingAndRecording =
    {| App.result := Some tt; App.after := speakingAndRecording;
       App.made :=
         [App.alert
            "No audio available to download. Please generate speech first."] |}.
Proof.
  apply (C10_download_without_artifact speakingAndRecording 1700000000000
           false).
  reflexivity.
Defined.

(** * Words and frequencies *)

Module WordFacts.






End WordFacts.




Example wordIndex_abc :
  Wav.wordIndex (str "a b c") 22050 = 1 /\
  Wav.baseFreq (Wav.wordIndex (str "a b c") 22050) = 160.
Proof. split; vm_compute; reflexivity. Qed.

(** * Further properties of the code *)

(** ** Rounding: the sample count and the stored samples *)

Module RoundingFacts.

(** The number of binary digits of a mantissa. *)
Lemma digits2_pos_bounds p :
  2 ^ (Z.pos (digits2_pos p) - 1) <= Z.pos p < 2 ^ Z.pos (digits2_pos p).
Proof.
  induction p as [p IH|p IH|]; cbn [digits2_pos]; [| |cbn; lia].
  all: rewrite Pos2Z.inj_succ;
    replace (Z.succ (Z.pos (digits2_pos p)) - 1)
      with (Z.succ (Z.pos (digits2_pos p) - 1)) by lia;
    rewrite !Z.pow_succ_r by lia; lia.
Qed.

Lemma Zdigits2_unique m k :
  0 < m -> 2 ^ (k - 1) <= m < 2 ^ k -> Zdigits2 m = k.
Proof.
  intros Hm [Hlo Hhi]. destruct m as [|p|p]; try lia. cbn [Zdigits2].
  pose proof (digits2_pos_bounds p) as [Dlo Dhi].
  assert (0 < k).
  { destruct (Z.ltb_spec 0 k); [assumption|].
    rewrite (Z.pow_neg_r 2 (k - 1)) in Hlo by lia.
    destruct (Z.eqb_spec k 0) as [->|]; [cbn in Hhi; lia|].
    rewrite Z.pow_neg_r in Hhi by lia. lia. }
  assert (Z.pos (digits2_pos p) - 1 < k)
    by (apply (Z.pow_lt_mono_r_iff 2); lia).
  assert (k - 1 < Z.pos (digits2_pos p))
    by (apply (Z.pow_lt_mono_r_iff 2); lia).
  lia.
Qed.

(** One shift to the right halves the mantissa. *)
Lemma shr_1_div2 mrs : 0 <= shr_m mrs -> shr_m (shr_1 mrs) = shr_m mrs / 2.
Proof.
  destruct mrs as [m r s]. cbn [shr_m]. intros Hm. rewrite <- Z.div2_div.
  destruct m as [|p|p]; [reflexivity| |lia]. destruct p; reflexivity.
Qed.

Lemma shr_m_iter p : forall mrs,
  0 <= shr_m mrs ->
  shr_m (SpecFloat.iter_pos shr_1 p mrs) = shr_m mrs / 2 ^ Z.pos p.
Proof.
  assert (Hnn : forall q r, 0 <= shr_m r ->
                  0 <= shr_m (SpecFloat.iter_pos shr_1 q r)).
  { intros q r.
    apply (NumberFacts.iter_pos_invariant (fun r => 0 <= shr_m r)).
    apply NumberFacts.shr_1_nonneg. }
  induction p as [p IH|p IH|]; intros mrs Hm; cbn [SpecFloat.iter_pos].
  - rewrite IH by (apply Hnn, NumberFacts.shr_1_nonneg, Hm).
    rewrite IH by (apply NumberFacts.shr_1_nonneg, Hm).
    rewrite shr_1_div2 by exact Hm.
    rewrite !Z.div_div by lia. f_equal.
    replace (Z.pos p~1) with (1 + Z.pos p + Z.pos p) by lia.
    rewrite !Z.pow_add_r by lia. change (2 ^ 1) with 2. lia.
  - rewrite IH by (apply Hnn, Hm). rewrite IH by exact Hm.
    rewrite !Z.div_div by lia. f_equal.
    replace (Z.pos p~0) with (Z.pos p + Z.pos p) by lia.
    rewrite !Z.pow_add_r by lia. lia.
  - rewrite shr_1_div2 by exact Hm. reflexivity.
Qed.

Lemma round_nearest_even_bounds m l :
  m <= round_nearest_even m l <= m + 1.
Proof.
  unfold round_nearest_even. destruct l as [|[| |]]; try lia.
  destruct (Z.even m); lia.
Qed.

(** A product whose exact mantissa has 105 or 106 digits, rounded to 53:
    the result lies between the truncated mantissa and its successor. *)
Lemma round_product M E :
  2 ^ 104 <= M < 2 ^ 106 -> -1000 <= E <= 800 ->
  exists n m' e',
    (n = 52 \/ n = 53) /\ 2 ^ (n + 52) <= M < 2 ^ (n + 53) /\
    binary_round_aux prec emax false M E loc_Exact = S754_finite false m' e' /\
    M / 2 ^ n * 2 ^ (53 - 52) <= Z.pos m' * 2 ^ (e' - (E + n - 1)) <=
      (M / 2 ^ n + 1) * 2 ^ (53 - 52) /\
    E + n <= e' <= E + n + 1.
Proof.
  intros HM HE.
  assert (HD : exists n, (n = 52 \/ n = 53) /\
                 2 ^ (n + 52) <= M < 2 ^ (n + 53)).
  { destruct (Z.ltb_spec M (2 ^ 105)).
    - exists 52. split; [auto|]. change (52 + 52) with 104.
      change (52 + 53) with 105. lia.
    - exists 53. split; [auto|]. change (53 + 52) with 105.
      change (53 + 53) with 106. lia. }
  destruct HD as (n & Hn & HMn). exists n.
  assert (Hdig : Zdigits2 M = n + 53).
  { apply Zdigits2_unique; [lia|].
    replace (n + 53 - 1) with (n + 52) by lia. exact HMn. }
  unfold binary_round_aux, shr_fexp. rewrite Hdig.
  replace (fexp prec emax (n + 53 + E) - E) with n
    by (unfold fexp, SpecFloat.emin, prec, emax; lia).
  set (q := M / 2 ^ n).
  assert (Hq : 2 ^ 52 <= q < 2 ^ 53).
  { unfold q. destruct Hn as [-> | ->].
    - change (52 + 52) with 104 in HMn. change (52 + 53) with 105 in HMn.
      split.
      + apply Z.div_le_lower_bound; [lia|]. rewrite <- Z.pow_add_r by lia.
        exact (proj1 HMn).
      + apply Z.div_lt_upper_bound; [lia|]. rewrite <- Z.pow_add_r by lia.
        exact (proj2 HMn).
    - change (53 + 52) with 105 in HMn. change (53 + 53) with 106 in HMn.
      split.
      + apply Z.div_le_lower_bound; [lia|]. rewrite <- Z.pow_add_r by lia.
        exact (proj1 HMn).
      + apply Z.div_lt_upper_bound; [lia|]. rewrite <- Z.pow_add_r by lia.
        exact (proj2 HMn). }
  assert (Hshr : exists mrs,
            shr (shr_record_of_loc M loc_Exact) E n = (mrs, E + n) /\
            shr_m mrs = q).
  { destruct Hn as [-> | ->]; eexists; (split; [reflexivity|]);
      apply shr_m_iter; cbn [shr_record_of_loc shr_m]; lia. }
  destruct Hshr as (mrs & -> & Hmrs). rewrite Hmrs.
  pose proof (round_nearest_even_bounds q (loc_of_shr_record mrs)) as Hr.
  set (r := round_nearest_even q (loc_of_shr_record mrs)) in *.
  destruct (Z.ltb_spec r (2 ^ 53)) as [Hlt|Hge].
  - assert (Hd2 : Zdigits2 r = 53)
      by (apply Zdigits2_unique; [lia|]; change (53 - 1) with 52; lia).
    rewrite Hd2.
    replace (fexp prec emax (53 + (E + n)) - (E + n)) with 0
      by (unfold fexp, SpecFloat.emin, prec, emax; lia).
    cbn [shr shr_record_of_loc shr_m].
    destruct r as [|m'|m']; try lia.
    assert ((E + n <=? emax - prec) = true) as ->
      by (apply Z.leb_le; unfold emax, prec; lia).
    exists m', (E + n). split; [exact Hn|]. split; [exact HMn|].
    split; [reflexivity|].
    replace (E + n - (E + n - 1)) with 1 by lia.
    change (2 ^ (53 - 52)) with 2. change (2 ^ 1) with 2. lia.
  - assert (r = 2 ^ 53) as Er by lia.
    assert (Hd2 : Zdigits2 r = 54)
      by (rewrite Er; reflexivity).
    rewrite Hd2.
    replace (fexp prec emax (54 + (E + n)) - (E + n)) with 1
      by (unfold fexp, SpecFloat.emin, prec, emax; lia).
    rewrite Er. cbn [shr shr_record_of_loc shr_m SpecFloat.iter_pos].
    change (shr_m (shr_1 {| shr_m := 2 ^ 53; shr_r := false;
                            shr_s := false |}))
      with (Z.pos 4503599627370496).
    cbv beta iota.
    assert ((E + n + 1 <=? emax - prec) = true) as ->
      by (apply Z.leb_le; unfold emax, prec; lia).
    exists 4503599627370496%positive, (E + n + 1).
    split; [exact Hn|]. split; [exact HMn|].
    split; [reflexivity|].
    replace (E + n + 1 - (E + n - 1)) with 2 by lia.
    change (2 ^ (53 - 52)) with 2. change (2 ^ 2) with 4.
    change (2 ^ 53) with 9007199254740992 in *.
    change (2 ^ 52) with 4503599627370496 in *. lia.
Qed.

(** Powers of two with a known exponent, as numerals. *)
Ltac powers :=
  repeat match goal with
  | |- context [2 ^ ?k] =>
      let v := eval vm_compute in (2 ^ k) in
      lazymatch v with Z.pos _ => change (2 ^ k) with v end
  | H : context [2 ^ ?k] |- _ =>
      let v := eval vm_compute in (2 ^ k) in
      lazymatch v with Z.pos _ => change (2 ^ k) with v in H end
  end.

(** A Number between 2 and 30 is positive, with an exponent from -51
    to -48. *)
Lemma range_cases x :
  SFleb (S754_finite false 4503599627370496 (-51)) x = true ->
  SFleb x (S754_finite false 8444249301319680 (-48)) = true ->
  exists m e, x = S754_finite false m e /\ -51 <= e <= -48 /\
    (e = -48 -> Z.pos m <= 8444249301319680).
Proof.
  intros H2 H30.
  destruct x as [[|]|[|]| |[|] m e]; try discriminate.
  rewrite NumberFacts.SFleb_positive in H2, H30.
  rewrite orb_true_iff, andb_true_iff, Z.ltb_lt, Z.eqb_eq, Z.leb_le
    in H2, H30.
  exists m, e. split; [reflexivity|]. lia.
Qed.

(** The mantissa of a normal Number has 53 digits. *)
Lemma normal_mantissa m e :
  SpecFloat.valid_binary prec emax (S754_finite false m e) = true ->
  -1074 < e -> 2 ^ 52 <= Z.pos m < 2 ^ 53.
Proof.
  intros Hv He.
  unfold SpecFloat.valid_binary, bounded, canonical_mantissa, fexp,
    SpecFloat.emin, prec, emax in Hv.
  apply andb_prop in Hv as [Hc _]. apply Z.eqb_eq in Hc.
  pose proof (digits2_pos_bounds m) as Hd.
  assert (Z.pos (digits2_pos m) = 53) as Hdig by lia.
  rewrite Hdig in Hd. change (53 - 1) with 52 in Hd. exact Hd.
Qed.

(** The floor of 22050 times a Number between 2 and 30. *)
Lemma floor_sampleRate d :
  (2 <=? d)%float && (d <=? 30)%float = true ->
  44100 <= Math_floor (ofZ Wav.sampleRate * d) <= 661500.
Proof.
  intros [H2 H30]%andb_prop. rewrite FloatAxioms.leb_spec in H2, H30.
  change (Prim2SF 2) with (S754_finite false 4503599627370496 (-51)) in H2.
  change (Prim2SF 30) with (S754_finite false 8444249301319680 (-48)) in H30.
  destruct (range_cases _ H2 H30) as (m & e & Hd & He & Hm30).
  pose proof (Prim2SF_valid d) as Hv. rewrite Hd in Hv.
  apply normal_mantissa in Hv; [|lia].
  unfold Math_floor. rewrite mul_spec, Hd.
  change (Prim2SF (ofZ Wav.sampleRate))
    with (S754_finite false 6061057848115200 (-38)).
  unfold SF64mul, SFmul. cbn [xorb]. rewrite Pos2Z.inj_mul.
  destruct (round_product (6061057848115200 * Z.pos m) (-38 + e))
    as (n & m' & e' & Hn & HM & -> & Hval & He'); [powers; lia | lia |].
  assert (Hneg : (0 <=? e') = false) by (apply Z.leb_gt; lia).
  rewrite Hneg, Z.shiftr_div_pow2 by lia.
  assert (Hcase : e' = -38 + e + n \/ e' = -38 + e + n + 1) by lia.
  assert (Hecase : e = -51 \/ e = -50 \/ e = -49 \/ e = -48) by lia.
  clear H2 H30 Hd Hneg He He'.
  destruct Hn as [-> | ->];
  destruct Hcase as [-> | ->];
  destruct Hecase as [-> | [-> | [-> | ->]]];
  try specialize (Hm30 eq_refl); powers.
  all: Z.div_mod_to_equations; lia.
Qed.

Lemma SFltb_negative m1 e1 m2 e2 :
  SFltb (S754_finite true m1 e1) (S754_finite true m2 e2) =
  (e2 <? e1) || (e1 =? e2) && (Z.pos m2 <? Z.pos m1).
Proof.
  unfold SFltb, SFcompare.
  change (Pos.compare_cont Eq m1 m2) with (Pos.compare m1 m2).
  destruct (Z.compare_spec e1 e2) as [-> | Hlt | Hgt].
  - rewrite Z.ltb_irrefl, Z.eqb_refl. cbn [orb andb].
    unfold Z.ltb. cbn [Z.compare]. rewrite (Pos.compare_antisym m1 m2).
    destruct (Pos.compare m1 m2); reflexivity.
  - assert ((e2 <? e1) = false) as -> by lia.
    assert ((e1 =? e2) = false) as -> by lia. reflexivity.
  - assert ((e2 <? e1) = true) as -> by lia. reflexivity.
Qed.

(** Every mantissa has at most 53 digits. *)
Lemma mantissa_bound s m e :
  SpecFloat.valid_binary prec emax (S754_finite s m e) = true ->
  Z.pos m < 2 ^ 53.
Proof.
  intros Hv.
  unfold SpecFloat.valid_binary, bounded, canonical_mantissa, fexp,
    SpecFloat.emin, prec, emax in Hv.
  apply andb_prop in Hv as [Hc _]. apply Z.eqb_eq in Hc.
  pose proof (digits2_pos_bounds m) as [_ Hd].
  assert (Hle : Z.pos (digits2_pos m) <= 53) by lia.
  eapply Z.lt_le_trans; [exact Hd|].
  apply Z.pow_le_mono_r; lia.
Qed.

(** A mantissa shifted right by at least [k] places. *)
Lemma shiftr_bound m e k b :
  Z.pos m < 2 ^ 53 -> 0 < k -> e <= - k -> 2 ^ 53 / 2 ^ k <= b ->
  0 <= Z.shiftr (Z.pos m) (- e) <= b.
Proof.
  intros Hm Hk He Hb. rewrite Z.shiftr_div_pow2 by lia.
  split; [apply Z.div_pos; [lia | apply Z.pow_pos_nonneg; lia]|].
  transitivity (Z.pos m / 2 ^ k).
  - apply Z.div_le_compat_l; [lia|]. split; [apply Z.pow_pos_nonneg; lia|].
    apply Z.pow_le_mono_r; lia.
  - transitivity (2 ^ 53 / 2 ^ k); [|exact Hb].
    apply Z.div_le_mono; [apply Z.pow_pos_nonneg; lia | lia].
Qed.

(** A Number that is neither above 32767 nor below -32768 truncates to
    a 16-bit signed integer. *)
Lemma truncate_int16 x :
  (32767 <? x)%float = false ->
  (-32768 <? x)%float = true \/ (x <? -32768)%float = false ->
  -32768 <= truncate x <= 32767.
Proof.
  intros A CD. unfold truncate.
  rewrite !FloatAxioms.ltb_spec in *.
  change (Prim2SF 32767) with (S754_finite false 9006924376834048 (-38)) in *.
  change (Prim2SF (-32768))
    with (S754_finite true 4503599627370496 (-37)) in *.
  pose proof (Prim2SF_valid x) as Hv.
  destruct (Prim2SF x) as [s|[|]| |[|] m e]; try lia.
  - apply mantissa_bound in Hv.
    assert (He : e <= -37 /\ (e = -37 -> Z.pos m <= 4503599627370496)).
    { destruct CD as [C|D]; rewrite SFltb_negative in *.
      - rewrite orb_true_iff, andb_true_iff, !Z.ltb_lt, Z.eqb_eq in C. lia.
      - rewrite orb_false_iff, andb_false_iff, !Z.ltb_ge, Z.eqb_neq in D.
        lia. }
    destruct He as [He Hm].
    assert ((0 <=? e) = false) as -> by lia.
    destruct (Z.eq_dec e (-37)) as [->|Hne].
    + specialize (Hm eq_refl). change (- -37) with 37.
      rewrite Z.shiftr_div_pow2 by lia. powers.
      Z.div_mod_to_equations. lia.
    + pose proof (shiftr_bound m e 38 32768 Hv ltac:(lia) ltac:(lia)
                    ltac:(powers; Z.div_mod_to_equations; lia)). lia.
  - apply mantissa_bound in Hv. rewrite NumberFacts.SFltb_positive in A.
    rewrite orb_false_iff, andb_false_iff, !Z.ltb_ge, Z.eqb_neq in A.
    assert ((0 <=? e) = false) as -> by lia.
    destruct (Z.eq_dec e (-38)) as [->|Hne].
    + change (- -38) with 38.
      rewrite Z.shiftr_div_pow2 by lia. powers.
      Z.div_mod_to_equations. lia.
    + pose proof (shiftr_bound m e 39 32767 Hv ltac:(lia) ltac:(lia)
                    ltac:(powers; Z.div_mod_to_equations; lia)). lia.
Qed.

(** The nest of [Math.max] and [Math.min] of line 218 yields a Number
    that truncates to a 16-bit signed integer, whatever the sample. *)
Lemma clamp_int16 x :
  -32768 <= truncate (Math_max (-32768) (Math_min 32767 x)) <= 32767.
Proof.
  unfold Math_min. change (is_nan 32767) with false. cbn [orb].
  destruct (is_nan x) eqn:Hn; [vm_compute; split; discriminate|].
  destruct (32767 <? x)%float eqn:A; [vm_compute; split; discriminate|].
  replace (if (x <? 32767)%float then x
           else if get_sign 32767 then 32767%float else x) with x
    by (destruct (x <? 32767)%float; reflexivity).
  unfold Math_max. change (is_nan (-32768)) with false.
  rewrite Hn. cbn [orb].
  destruct (-32768 <? x)%float eqn:C; [apply truncate_int16; auto|].
  destruct (x <? -32768)%float eqn:D; [vm_compute; split; discriminate|].
  change (get_sign (-32768)) with true. cbv iota.
  apply truncate_int16; auto.
Qed.

(** NaN passes through both and is stored as 0. *)
Lemma clamp_nan x :
  is_nan x = true -> truncate (Math_max (-32768) (Math_min 32767 x)) = 0.
Proof.
  intros Hn. unfold Math_min. rewrite Hn, orb_true_r. reflexivity.
Qed.

End RoundingFacts.

Module GeneratorFacts.
Import BufferFacts.

Lemma numSamples_range text : 44100 <= Wav.numSamples text <= 661500.
Proof.
  apply RoundingFacts.floor_sampleRate, NumberFacts.duration_range.
Qed.


(** Sample [i] of an encoded buffer, read as a signed 16-bit integer. *)
Lemma getInt16_sample (value : Z -> float) n d i :
  0 <= i < n ->
  getInt16 (44 + 2 * i)
    (canonicalHeader Wav.sampleRate 1 d ++
     concat (int16LE value <$> seqZ 0 n)) =
  Some (ToInt16 (truncate (value i))).
Proof.
  intros Hi. unfold getInt16, getUint16.
  assert (Hh : length (canonicalHeader Wav.sampleRate 1 d) = 44%nat)
    by reflexivity.
  rewrite load_app_r by (rewrite Hh; lia). rewrite Hh.
  replace (44 + 2 * i - Z.of_nat 44) with (2 * Z.of_nat (Z.to_nat i)) by lia.
  rewrite <- (Z2Nat.id n) by lia.
  rewrite (load_sample (int16LE value))
    by (intros; try apply length_bytesLE; lia).
  cbn [fmap option_fmap option_map]. unfold int16LE.
  rewrite fromLE_bytesLE. change (2 ^ (8 * Z.of_nat 2)) with 65536.
  rewrite Z.add_0_l, Z2Nat.id by lia.
  f_equal. unfold ToUint16. rewrite Z.mod_mod by lia.
  fold (ToUint16 (truncate (value i))). apply ToInt16_ToUint16.
Qed.

Lemma ToInt16_small v : -32768 <= v <= 32767 -> ToInt16 v = v.
Proof.
  intros Hv. unfold ToInt16.
  destruct (Z.ltb_spec (v mod 65536) 32768); Z.div_mod_to_equations; lia.
Qed.

Section WithHost.
Context `{Host}.

(** The body of [try] throws exactly when the buffer cannot be
    allocated. *)
Lemma tryGenerate_total text :
  Wav.tryGenerate text =
  if allocates (44 + Wav.numSamples text * 2)
  then Some (canonicalHeader Wav.sampleRate 1 (Wav.numSamples text * 2) ++
             concat (int16LE (Wav.clamped text) <$>
                     seqZ 0 (Wav.numSamples text)))
  else None.
Proof.
  pose proof (numSamples_range text) as Hn.
  destruct (allocates _) eqn:Ha.
  - apply encode_bytes; [lia | lia | exact Ha].
  - unfold Wav.tryGenerate, Wav.encode, Wav.new_ArrayBuffer.
    rewrite Ha, andb_false_r. reflexivity.
Qed.

End WithHost.
End GeneratorFacts.

(** X1.  For every text the sample count lies between 44100 and 661500
    (2 and 30 seconds at 22050 Hz), so the buffer has between 88244 and
    1323044 bytes and both size fields of the header hold their values
    without wrapping. *)
Theorem X1_sample_count_bounds (text : jsstring) :
  44100 <= Wav.numSamples text <= 661500 /\
  88244 <= 44 + Wav.numSamples text * 2 <= 1323044 /\
  ToUint32 (36 + Wav.numSamples text * 2) = 36 + Wav.numSamples text * 2 /\
  ToUint32 (Wav.numSamples text * 2) = Wav.numSamples text * 2.
Proof.
  pose proof (GeneratorFacts.numSamples_range text) as Hn.
  split; [exact Hn|]. split; [lia|].
  unfold ToUint32. split; apply Z.mod_small; lia.
Qed.


(** X3.  Every sample is stored without wrapping: the clamp of line 218
    yields a Number whose truncation fits 16 bits, so what is read back
    at offset 44 + 2i is the truncation of the clamped sample itself;
    a sample that is NaN is stored as 0.  This holds whatever the host's
    sine and random values are. *)
Theorem X3_samples_stored_without_wrap `{Host} (text : jsstring) (i : Z) :
  0 <= i < Wav.numSamples text ->
  allocates (44 + Wav.numSamples text * 2) = true ->
  exists buffer,
    Wav.tryGenerate text = Some buffer /\
    getInt16 (44 + 2 * i) buffer = Some (truncate (Wav.clamped text i)) /\
    -32768 <= truncate (Wav.clamped text i) <= 32767 /\
    (is_nan (Wav.sample text i) = true ->
     getInt16 (44 + 2 * i) buffer = Some 0).
Proof.
  intros Hi Ha.
  pose proof (RoundingFacts.clamp_int16 (Wav.sample text i)) as Hc.
  fold (Wav.clamped text i) in Hc.
  eexists. split.
  { rewrite GeneratorFacts.tryGenerate_total, Ha. reflexivity. }
  rewrite GeneratorFacts.getInt16_sample by exact Hi.
  rewrite GeneratorFacts.ToInt16_small by exact Hc.
  split; [reflexivity|]. split; [exact Hc|].
  intros Hn. f_equal. apply RoundingFacts.clamp_nan. exact Hn.
Qed.

(** X3 on "Hi" and a silent host, at the first sample. *)
Lemma X3_witness :
  exists buffer,
    Wav.tryGenerate (H := quietHost) (str "Hi") = Some buffer /\
    getInt16 (44 + 2 * 0) buffer =
      Some (truncate (Wav.clamped (H := quietHost) (str "Hi") 0)) /\
    -32768 <= truncate (Wav.clamped (H := quietHost) (str "Hi") 0)
      <= 32767 /\
    (is_nan (Wav.sample (H := quietHost) (str "Hi") 0) = true ->
     getInt16 (44 + 2 * 0) buffer = Some 0).
Proof.
  apply (X3_samples_stored_without_wrap (H := quietHost) (str "Hi") 0).
  - split; [lia | vm_compute; reflexivity].
  - reflexivity.
Defined.

Module WriterFacts.
Import BufferFacts.

Lemma writeString_Some s : forall off view,
  0 <= off -> off + Z.of_nat (length s) <= Z.of_nat (length view) ->
  Wav.writeString off s view =
  Some (take (Z.to_nat off) view ++ map ToUint8 s ++
        drop (Z.to_nat off + length s) view).
Proof.
  induction s as [|c s IH]; intros off view H0 Hlen.
  - cbn [Wav.writeString map length app]. rewrite Nat.add_0_r, take_drop.
    reflexivity.
  - cbn [Wav.writeString length] in *. unfold setUint8.
    rewrite store_Some by (cbn [length]; lia). cbn [mbind option_bind length].
    set (pre := take (Z.to_nat off) view).
    assert (Hpre : length (pre ++ [ToUint8 c]) = (Z.to_nat off + 1)%nat)
      by (unfold pre; rewrite length_app, length_take; cbn [length]; lia).
    rewrite (app_assoc pre [ToUint8 c]).
    rewrite IH
      by (try rewrite length_app, Hpre, length_drop; lia).
    replace (Z.to_nat (off + 1)) with (Z.to_nat off + 1)%nat by lia.
    rewrite take_app_length' by (symmetry; exact Hpre).
    rewrite drop_app_add' by (symmetry; exact Hpre).
    rewrite drop_drop, <- app_assoc. cbn [app map]. unfold pre.
    replace (Z.to_nat off + 1 + length s)%nat
      with (Z.to_nat off + S (length s))%nat by lia. reflexivity.
Qed.

Lemma writeString_None s : forall off view,
  s <> [] ->
  off < 0 \/ Z.of_nat (length view) < off + Z.of_nat (length s) ->
  Wav.writeString off s view = None.
Proof.
  induction s as [|c s IH]; intros off view Hne Hout; [contradiction|].
  cbn [Wav.writeString length] in *. unfold setUint8.
  destruct (store off [ToUint8 c] view) as [view'|] eqn:E; [|reflexivity].
  cbn [mbind option_bind].
  pose proof (store_length _ _ _ _ E) as Hl.
  apply store_inv in E as (H0 & H1 & _). cbn [length] in H1.
  apply IH; [|rewrite Hl; lia].
  intros ->. cbn [length] in Hout. lia.
Qed.

End WriterFacts.

(** X4.  writeString writes the low byte of every code unit at
    consecutive offsets and leaves the rest of the buffer alone; it
    raises a RangeError exactly when the string is not empty and does not
    fit inside the buffer at the offset.  What was written reads back as
    the code units modulo 256. *)
Theorem X4_writeString_in_bounds
    (offset : Z) (s : jsstring) (view : buffer) :
  Wav.writeString offset s view =
    (if bool_decide (s = []) ||
        (0 <=? offset) &&
        (offset + Z.of_nat (length s) <=? Z.of_nat (length view))
     then Some (take (Z.to_nat offset) view ++ map ToUint8 s ++
                drop (Z.to_nat offset + length s) view)
     else None) /\
  (forall view',
     Wav.writeString offset s view = Some view' ->
     length view' = length view /\
     (s <> [] -> load offset (length s) view' = Some (map ToUint8 s))).
Proof.
  assert (E : Wav.writeString offset s view =
    (if bool_decide (s = []) ||
        (0 <=? offset) &&
        (offset + Z.of_nat (length s) <=? Z.of_nat (length view))
     then Some (take (Z.to_nat offset) view ++ map ToUint8 s ++
                drop (Z.to_nat offset + length s) view)
     else None)).
  { destruct (decide (s = [])) as [->|Hne].
    - rewrite bool_decide_true by reflexivity.
      cbn [orb Wav.writeString map length app].
      rewrite Nat.add_0_r, take_drop. reflexivity.
    - rewrite bool_decide_false by exact Hne. cbn [orb].
      destruct (Z.leb_spec 0 offset);
        [|apply WriterFacts.writeString_None; [exact Hne | lia]].
      destruct (Z.leb_spec (offset + Z.of_nat (length s))
                  (Z.of_nat (length view)));
        [|apply WriterFacts.writeString_None; [exact Hne | lia]].
      apply WriterFacts.writeString_Some; assumption. }
  split; [exact E|]. intros view' Hw. rewrite E in Hw.
  destruct (decide (s = [])) as [->|Hne].
  - rewrite bool_decide_true in Hw by reflexivity. cbn [orb] in Hw.
    injection Hw as <-. cbn [map length app].
    rewrite Nat.add_0_r, take_drop.
    split; [reflexivity | intros []; reflexivity].
  - rewrite bool_decide_false in Hw by exact Hne. cbn [orb] in Hw.
    destruct (Z.leb_spec 0 offset); [|discriminate].
    destruct (Z.leb_spec (offset + Z.of_nat (length s))
                (Z.of_nat (length view))); [|discriminate].
    cbn [andb] in Hw. injection Hw as <-.
    assert (Ht : length (take (Z.to_nat offset) view) = Z.to_nat offset)
      by (rewrite length_take; lia).
    split.
    + rewrite !length_app, Ht, length_map, length_drop. lia.
    + intros _. rewrite BufferFacts.load_app_r by (rewrite Ht; lia).
      rewrite Ht, Z2Nat.id, Z.sub_diag by lia.
      rewrite BufferFacts.load_app_l
        by (rewrite ?length_map; lia).
      change (Z.to_nat 0) with 0%nat. rewrite drop_0, take_ge; [reflexivity|].
      rewrite length_map. lia.
Qed.

(** ** The page: guards, handlers and what they leave behind *)

Module PageFacts.
Import App AppFacts.

(** What [trimStart] leaves starts with a unit that is not white
    space. *)
Lemma trimStart_nil s :
  trimStart s = [] <-> forallb isWhiteSpace s = true.
Proof.
  induction s as [|c s IH]; cbn [trimStart forallb]; [tauto|].
  destruct (isWhiteSpace c); cbn [andb]; [exact IH|].
  split; discriminate.
Qed.

Lemma trimStart_app_keeps s c :
  isWhiteSpace c = false -> trimStart (s ++ [c]) <> [].
Proof.
  intros Hc E. apply trimStart_nil in E. rewrite forallb_app in E.
  cbn [forallb] in E. rewrite Hc, andb_false_r in E. discriminate.
Qed.

Lemma trimStart_head s c r :
  trimStart s = c :: r -> isWhiteSpace c = false.
Proof.
  induction s as [|d s IH]; cbn [trimStart]; [discriminate|].
  destruct (isWhiteSpace d) eqn:E; [exact IH|].
  intros [= -> _]. exact E.
Qed.

(** [trim] leaves nothing exactly when every unit is white space. *)
Lemma trim_nil s : trim s = [] <-> forallb isWhiteSpace s = true.
Proof.
  rewrite <- trimStart_nil. unfold trim, trimEnd.
  destruct (trimStart s) as [|c r] eqn:E; [split; reflexivity|].
  split; [|discriminate]. intros Hr. exfalso.
  apply (f_equal (@rev Z)) in Hr. rewrite rev_involutive in Hr.
  cbn [rev] in Hr. revert Hr. apply trimStart_app_keeps.
  exact (trimStart_head _ _ _ E).
Qed.

(** A computation whose first step is known. *)
Lemma bind_run {A B} (m : M A) (k : A -> M B) s a s' calls :
  m s = {| result := Some a; after := s'; made := calls |} ->
  (m ≫= k) s =
  {| result := result (k a s'); after := after (k a s');
     made := calls ++ made (k a s') |}.
Proof. intros E. unfold mbind, M_bind, bind. rewrite E. reflexivity. Qed.

(** Empty chunks carry no bytes. *)
Lemma concat_nonempty (chunks : list (list Z)) :
  concat (List.filter nonempty chunks) = concat chunks.
Proof.
  induction chunks as [|d chunks IH]; [reflexivity|].
  cbn [List.filter]. destruct d as [|x d]; [exact IH|].
  change (nonempty (x :: d)) with true. cbn [concat]. rewrite IH.
  reflexivity.
Qed.

Section WithHost.
Context `{Host}.

(** The two branches of the guard of [speak]. *)
Lemma speak_blank (s : state) (o : speakOracle) :
  trim (text s) = [] ->
  speak o s =
    {| result := Some tt; after := s;
       made := [alert "Please enter some text to speak."] |}.
Proof.
  intros E. destruct s. cbn [text] in E. unfold speak.
  unfold mbind at 1, M_bind at 1, bind at 1.
  cbn [get ret result after made text app].
  rewrite bool_decide_true by exact E. reflexivity.
Qed.

Lemma speak_nonblank (s : state) (o : speakOracle) :
  trim (text s) <> [] -> speak o s = speakText o (text s) s.
Proof.
  intros E. destruct s. cbn [text] in E. unfold speak.
  unfold mbind at 1, M_bind at 1, bind at 1.
  cbn [get ret result after made text app].
  rewrite bool_decide_false by exact E. reflexivity.
Qed.

(** A whole attempt, past the guard. *)
Lemma attempt_nonblank (s : state) (o : speakOracle) startThrows c
    stopThrows lastData :
  trim (text s) <> [] ->
  attempt o startThrows c stopThrows lastData s =
  (speakText o (text s) ;; deliver_start startThrows ;;
   finish c stopThrows lastData) s.
Proof.
  intros Ht. unfold attempt, mbind, M_bind, bind.
  rewrite (speak_nonblank s o Ht). reflexivity.
Qed.

(** Past its guard [speak] alerts nobody. *)
Lemma speak_no_alert (s : state) (o : speakOracle) :
  trim (text s) <> [] -> List.filter isAlert (made (speak o s)) = [].
Proof.
  intros Ht. rewrite (speak_nonblank s o Ht).
  destruct s as [t ? ? ? ? ? ? url ? ? ? sp ? ? ? ? ? ? ? ?].
  destruct o as [m th].
  destruct sp, url as [b|], m as [| |[|]], th; run;
    rewrite ?fallback_spec; run; reflexivity.
Qed.

(** The steps of an attempt, with the capture flags they leave. *)
Lemma speak_capture (s : state) (o : speakOracle) :
  trim (text s) <> [] -> speechThrows o = false ->
  exists s' calls,
    speak o s = {| result := Some tt; after := s'; made := calls |} /\
    spokenText s' = text s /\
    recordingReady s' = captureReady (media o) /\
    recordingStarted s' = false /\
    mediaRecorder s' =
      (if captureReady (media o) then Some inactive else mediaRecorder s) /\
    stopEventPending s' = stopEventPending s /\
    isRecording s' = isRecording s /\
    stream s' = match media o with granted _ => true | _ => stream s end /\
    List.filter isRecorderCall calls = [] /\
    text s' = text s.
Proof.
  intros Ht Ho. rewrite (speak_nonblank s o Ht). clear Ht.
  destruct o as [m th]. cbn [speechThrows] in Ho. subst th.
  destruct s as [t ? ? ? ? ? ? url ? ? ? sp ? ? ? ? ? ? ? ?].
  destruct sp, url as [b|], m as [| |[|]];
    (eexists _, _; split; [run; reflexivity|]); repeat split.
Qed.

Lemma start_capture (s : state) (startThrows : bool) :
  exists s' calls,
    deliver_start startThrows s =
      {| result := Some tt; after := s'; made := calls |} /\
    spokenText s' = spokenText s /\
    recordingStarted s' =
      (if recordingReady s && inState inactive (mediaRecorder s)
       then negb startThrows else recordingStarted s) /\
    mediaRecorder s' =
      (if captureStarts startThrows s then Some recording
       else mediaRecorder s) /\
    stopEventPending s' = stopEventPending s /\
    isRecording s' =
      (if recordingReady s && inState inactive (mediaRecorder s)
       then true else isRecording s) /\
    stream s' = stream s /\
    List.filter isRecorderCall calls = [] /\
    text s' = text s.
Proof.
  unfold captureStarts.
  destruct s as [? ? ? ? ? ? ? ? ? ? ? sp rec ch live ? ? ready started pend].
  destruct ready, rec as [[| |]|], startThrows;
    (eexists _, _; split; [run; reflexivity|]); repeat split.
Qed.

Lemma finish_capture (s : state) c stopThrows lastData :
  stopEventPending s = false -> stoppedCapture c stopThrows s = false ->
  exists s' calls,
    finish c stopThrows lastData s =
      {| result := Some tt; after := s'; made := calls |} /\
    audioUrl s' = Some (synthesized (spokenText s)) /\
    mediaRecorder s' = mediaRecorder s /\
    isRecording s' = isRecording s /\
    stream s' = stream s /\
    isSpeaking s' = false /\ isProcessing s' = false /\
    List.filter isRecorderCall calls = [] /\
    text s' = text s.
Proof.
  intros Hp. unfold stoppedCapture.
  destruct s as [? ? ? ? ? ? ? ? ? ? ? sp rec ch live ? ? ? started pend].
  cbn [stopEventPending] in Hp. subst pend.
  cbn [recordingStarted mediaRecorder].
  destruct c; [|intros _; finished].
  destruct started; [|intros _; finished].
  destruct rec as [[| |]|];
    [intros _; finished| |intros _; finished|intros _; finished].
  destruct stopThrows; [intros _; finished|discriminate].
Qed.

End WithHost.
End PageFacts.

(** X5.  speak refuses a text exactly when every code unit of it is
    white space (the empty text included): then, and only then, it
    shows the alert and does nothing else. *)
Theorem X5_speak_refuses_exactly_blank_text `{Host}
    (s : App.state) (o : App.speakOracle) :
  App.speak o s =
    {| App.result := Some tt; App.after := s;
       App.made := [App.alert "Please enter some text to speak."] |} <->
  forallb isWhiteSpace (App.text s) = true.
Proof.
  rewrite <- PageFacts.trim_nil. split; [|apply PageFacts.speak_blank].
  intros E.
  destruct (decide (trim (App.text s) = [])) as [Hb|Hn]; [exact Hb|].
  pose proof (PageFacts.speak_no_alert s o Hn) as Hf. rewrite E in Hf.
  discriminate Hf.
Qed.

(** X6.  When the page holds an artifact, speak revokes its object URL
    twice: once itself and once more in setupAudioRecording, which reads
    the same audioUrl of the render; with no artifact nothing is
    revoked. *)
Theorem X6_speak_revokes_the_artifact_twice `{Host}
    (s : App.state) (o : App.speakOracle) :
  trim (App.text s) <> [] ->
  List.filter isRevoke (App.made (App.speak o s)) =
    match App.audioUrl s with
    | Some b => [App.revokeObjectURL b; App.revokeObjectURL b]
    | None => []
    end.
Proof.
  intros Ht. rewrite (PageFacts.speak_nonblank s o Ht).
  destruct s as [t ? ? ? ? ? ? url ? ? ? sp ? ? ? ? ? ? ? ?].
  destruct o as [m th].
  destruct sp, url as [b|], m as [| |[|]], th; AppFacts.run;
    rewrite ?AppFacts.fallback_spec; AppFacts.run; reflexivity.
Qed.

(** X6 on the page that holds an artifact. *)
Lemma X6_witness :
  List.filter isRevoke
    (App.made (App.speak (H := quietHost) microphone holding)) =
    match App.audioUrl holding with
    | Some b => [App.revokeObjectURL b; App.revokeObjectURL b]
    | None => []
    end.
Proof.
  apply (X6_speak_revokes_the_artifact_twice (H := quietHost)
           holding microphone).
  vm_compute. discriminate.
Defined.



(** X8.  setupAudioRecording never raises: it returns true exactly when
    the stream was granted and the recorder built, and otherwise leaves
    the message of the fallback in recordingError.  In every case the
    chunks are reset and the artifact slot is emptied; without
    getUserMedia support the device is not even asked. *)
Theorem X8_setup_never_raises `{Host}
    (s : App.state) (m : App.mediaOutcome) :
  App.result (App.setupAudioRecording (App.audioUrl s) m s) =
    Some (captureReady m) /\
  App.audioChunks (App.after (App.setupAudioRecording (App.audioUrl s) m s))
    = [] /\
  App.audioUrl (App.after (App.setupAudioRecording (App.audioUrl s) m s))
    = None /\
  App.recordingError
    (App.after (App.setupAudioRecording (App.audioUrl s) m s)) =
    (if captureReady m then ""
     else "Audio recording not available. Using fallback audio.")%string /\
  App.mediaRecorder
    (App.after (App.setupAudioRecording (App.audioUrl s) m s)) =
    (if captureReady m then Some App.inactive else App.mediaRecorder s) /\
  App.stream (App.after (App.setupAudioRecording (App.audioUrl s) m s)) =
    match m with App.granted _ => true | _ => App.stream s end /\
  List.filter (fun c => match c with App.getUserMedia => true | _ => false end)
    (App.made (App.setupAudioRecording (App.audioUrl s) m s)) =
    match m with App.unsupported => [] | _ => [App.getUserMedia] end.
Proof.
  destruct s as [? ? ? ? ? ? ? url ? ? ? ? ? ? ? ? ? ? ? ?].
  destruct url, m as [| |[|]]; AppFacts.run; unfold captureReady;
    repeat split.
Qed.



(** X10.  The captured Blob holds exactly the bytes that the recorder
    delivered, in arrival order (dropping the empty chunks changes
    nothing), and has type audio/webm; the stop handler clears
    isRecording and stops the tracks of the stream if there is one. *)
Theorem X10_captured_blob_is_all_the_data
    (s : App.state) (chunks : list (list Z)) :
  App.audioChunks s = [] ->
  App.result (App.mediaRecorder_onstop
                (App.after (App.deliver_data chunks s))) = Some tt /\
  App.audioUrl
    (App.after (App.mediaRecorder_onstop
                  (App.after (App.deliver_data chunks s)))) =
    Some {| blob_bytes := concat chunks; blob_type := "audio/webm" |} /\
  App.isRecording
    (App.after (App.mediaRecorder_onstop
                  (App.after (App.deliver_data chunks s)))) = false /\
  App.made (App.mediaRecorder_onstop
              (App.after (App.deliver_data chunks s))) =
    App.createObjectURL
      {| blob_bytes := concat chunks; blob_type := "audio/webm" |} ::
    (if App.stream s then [App.track_stop] else []).
Proof.
  intros Hc. rewrite AppFacts.deliver_data_spec. rewrite Hc.
  cbn [app App.after].
  destruct s as [? ? ? ? ? ? ? ? ? ? ? ? ? ? live ? ? ? ? ?].
  destruct live; AppFacts.run; unfold App.capturedBlob;
    rewrite PageFacts.concat_nonempty; repeat split.
Qed.

(** X10 on the page that speaks and records, with an empty chunk among
    the data. *)
Lemma X10_witness :
  App.result (App.mediaRecorder_onstop
                (App.after (App.deliver_data [[1; 2]; []; [3]]
                              speakingAndRecording))) = Some tt /\
  App.audioUrl
    (App.after (App.mediaRecorder_onstop
                  (App.after (App.deliver_data [[1; 2]; []; [3]]
                                speakingAndRecording)))) =
    Some {| blob_bytes := concat [[1; 2]; []; [3]];
            blob_type := "audio/webm" |} /\
  App.isRecording
    (App.after (App.mediaRecorder_onstop
                  (App.after (App.deliver_data [[1; 2]; []; [3]]
                                speakingAndRecording)))) = false /\
  App.made (App.mediaRecorder_onstop
              (App.after (App.deliver_data [[1; 2]; []; [3]]
                            speakingAndRecording))) =
    App.createObjectURL
      {| blob_bytes := concat [[1; 2]; []; [3]];
         blob_type := "audio/webm" |} ::
    (if App.stream speakingAndRecording then [App.track_stop] else []).
Proof.
  apply (X10_captured_blob_is_all_the_data speakingAndRecording
           [[1; 2]; []; [3]]).
  reflexivity.
Defined.

(** X11.  The artifact is made from the text as it was when speak was
    called: an edit of the text while the engine speaks changes the
    text of the page but not the text that the fallback audio is
    synthesized from.  (Capture is not available here, so the fallback
    is what the attempt ends with.) *)
Theorem X11_artifact_is_of_the_spoken_text `{Host}
    (s : App.state) (o : App.speakOracle) (edit : jsstring)
    (startThrows : bool) (c : App.completion) (stopThrows : bool)
    (lastData : list (list Z)) :
  trim (App.text s) <> [] -> App.speechThrows o = false ->
  App.stopEventPending s = false -> captureReady (App.media o) = false ->
  App.result (editedAttempt o edit startThrows c stopThrows lastData s) =
    Some tt /\
  App.text
    (App.after (editedAttempt o edit startThrows c stopThrows lastData s)) =
    edit /\
  App.audioUrl
    (App.after (editedAttempt o edit startThrows c stopThrows lastData s)) =
    Some (synthesized (App.text s)).
Proof.
  intros Ht Ho Hp Hm.
  destruct (PageFacts.speak_capture s o Ht Ho)
    as (s1 & calls1 & E1 & Htext & Hready & Hstarted & Hrec & Hpend & _).
  destruct (PageFacts.start_capture s1 startThrows)
    as (s2 & calls2 & E2 & Htext2 & Hstarted2 & _ & Hpend2 & _).
  rewrite Hready, Hm, Hstarted in Hstarted2. cbn [andb] in Hstarted2.
  destruct (PageFacts.finish_capture (App.setText edit s2) c stopThrows
              lastData)
    as (s3 & calls3 & E3 & Hurl & _ & _ & _ & _ & _ & _ & Hedit3).
  { cbn [App.setText App.stopEventPending]. congruence. }
  { unfold stoppedCapture.
    cbn [App.setText App.recordingStarted App.mediaRecorder].
    rewrite Hstarted2. destruct c; reflexivity. }
  cbn [App.setText App.spokenText App.text] in Hurl, Hedit3.
  unfold editedAttempt.
  rewrite (PageFacts.bind_run _ _ _ _ _ _ E1).
  rewrite (PageFacts.bind_run _ _ _ _ _ _ E2).
  rewrite (PageFacts.bind_run (App.modify (App.setText edit)) _ s2 tt
             (App.setText edit s2) [] eq_refl), E3.
  cbn [App.result App.after App.made].
  split; [reflexivity|]. split; congruence.
Qed.

(** X11 on the page where "Hi" was typed: the text becomes "Bye" while
    the engine speaks. *)
Lemma X11_witness :
  App.result (editedAttempt (H := quietHost) noMicrophone (str "Bye") false
                App.ended false [] typed) = Some tt /\
  App.text
    (App.after (editedAttempt (H := quietHost) noMicrophone (str "Bye") false
                  App.ended false [] typed)) = str "Bye" /\
  App.audioUrl
    (App.after (editedAttempt (H := quietHost) noMicrophone (str "Bye") false
                  App.ended false [] typed)) =
    Some (synthesized (H := quietHost) (App.text typed)).
Proof.
  apply (X11_artifact_is_of_the_spoken_text (H := quietHost) typed
           noMicrophone (str "Bye") false App.ended false []).
  - vm_compute. discriminate.
  - reflexivity.
  - reflexivity.
  - reflexivity.
Defined.

(** X12.  pause followed by resume brings the page back to the state it
    was in: while the engine speaks they call the engine's pause() and
    resume() once each, otherwise they do nothing; a second pause, and a
    resume on a page that is not paused, are no-ops. *)
Theorem X12_pause_then_resume (s : App.state) :
  App.isPaused s = false ->
  App.after (App.resume (App.after (App.pause s))) = s /\
  App.made (App.pause s) ++ App.made (App.resume (App.after (App.pause s))) =
    (if App.synth_speaking s then [App.synth_pause; App.synth_resume]
     else []) /\
  App.isPaused (App.after (App.pause s)) = App.synth_speaking s /\
  App.pause (App.after (App.pause s)) =
    {| App.result := Some tt; App.after := App.after (App.pause s);
       App.made := [] |} /\
  App.resume s = {| App.result := Some tt; App.after := s; App.made := [] |}.
Proof.
  destruct s as [? ? ? ? ? ? p ? ? ? ? sp ? ? ? ? ? ? ? ?].
  cbn [App.isPaused]. intros ->. destruct sp; repeat split.
Qed.

(** X12 on the page that speaks and records. *)
Lemma X12_witness :
  App.after (App.resume (App.after (App.pause speakingAndRecording))) =
    speakingAndRecording /\
  App.made (App.pause speakingAndRecording) ++
  App.made (App.resume (App.after (App.pause speakingAndRecording))) =
    (if App.synth_speaking speakingAndRecording
     then [App.synth_pause; App.synth_resume] else []) /\
  App.isPaused (App.after (App.pause speakingAndRecording)) =
    App.synth_speaking speakingAndRecording /\
  App.pause (App.after (App.pause speakingAndRecording)) =
    {| App.result := Some tt;
       App.after := App.after (App.pause speakingAndRecording);
       App.made := [] |} /\
  App.resume speakingAndRecording =
    {| App.result := Some tt; App.after := speakingAndRecording;
       App.made := [] |}.
Proof.
  apply (X12_pause_then_resume speakingAndRecording). reflexivity.
Defined.

(** X13.  handleClear empties the text, the error message and the
    artifact slot and silences the engine; it makes the calls of stop()
    and then revokes the object URL of the artifact if there was one.
    After it, speak only shows its alert.  When the recorder's stop()
    throws inside it, the exception escapes and the artifact is
    kept. *)
Theorem X13_clear_all `{Host} (s : App.state) (o : App.speakOracle) :
  App.result (App.handleClear false s) = Some tt /\
  App.text (App.after (App.handleClear false s)) = [] /\
  App.recordingError (App.after (App.handleClear false s)) = ""%string /\
  App.audioUrl (App.after (App.handleClear false s)) = None /\
  App.synth_speaking (App.after (App.handleClear false s)) = false /\
  App.made (App.handleClear false s) =
    App.made (App.stop false s) ++
    match App.audioUrl s with
    | Some b => [App.revokeObjectURL b]
    | None => []
    end /\
  App.speak o (App.after (App.handleClear false s)) =
    {| App.result := Some tt; App.after := App.after (App.handleClear false s);
       App.made := [App.alert "Please enter some text to speak."] |} /\
  App.result (App.handleClear true s) =
    (if App.synth_speaking s &&
        App.inState App.recording (App.mediaRecorder s)
     then None else Some tt) /\
  App.audioUrl (App.after (App.handleClear true s)) =
    (if App.synth_speaking s &&
        App.inState App.recording (App.mediaRecorder s)
     then App.audioUrl s else None).
Proof.
  assert (Ht : App.text (App.after (App.handleClear false s)) = []).
  { destruct s as [? ? ? ? ? ? ? url ? ? ? sp rec ? ? ? ? ? ? ?].
    destruct sp, rec as [[| |]|], url as [b|]; AppFacts.run; reflexivity. }
  split; [|split; [exact Ht|]].
  { destruct s as [? ? ? ? ? ? ? url ? ? ? sp rec ? ? ? ? ? ? ?].
    destruct sp, rec as [[| |]|], url as [b|]; AppFacts.run; reflexivity. }
  do 4 (split; [
    destruct s as [? ? ? ? ? ? ? url ? ? ? sp rec ? ? ? ? ? ? ?];
    destruct sp, rec as [[| |]|], url as [b|]; AppFacts.run; reflexivity|]).
  split; [apply PageFacts.speak_blank; rewrite Ht; reflexivity|].
  split;
    destruct s as [? ? ? ? ? ? ? url ? ? ? sp rec ? ? ? ? ? ? ?];
    destruct sp, rec as [[| |]|], url as [b|]; AppFacts.run; reflexivity.
Qed.

(** X14.  Clear All while the page speaks and records empties the
    artifact slot only for a moment: stop() inside it stops the
    recorder, and when the recorder delivers its stop event the captured
    audio is installed as the artifact, the text staying empty. *)
Theorem X14_clear_while_recording
    (s : App.state) (lastData : list (list Z)) :
  App.synth_speaking s = true -> App.mediaRecorder s = Some App.recording ->
  App.audioUrl (App.after (App.handleClear false s)) = None /\
  App.stopEventPending (App.after (App.handleClear false s)) = true /\
  App.text (App.after (App.deliver_recorder_stop lastData
                         (App.after (App.handleClear false s)))) = [] /\
  App.audioUrl (App.after (App.deliver_recorder_stop lastData
                             (App.after (App.handleClear false s)))) =
    Some (App.capturedBlob
            (App.audioChunks s ++ List.filter nonempty lastData)).
Proof.
  intros Hs Hr.
  destruct s as [? ? ? ? ? ? ? url ? ? ? sp rec ch live ? ? ? ? ?].
  cbn [App.synth_speaking App.mediaRecorder] in Hs, Hr. subst sp rec.
  destruct url as [b|]; AppFacts.run;
    (split; [reflexivity|]); (split; [reflexivity|]);
    rewrite AppFacts.deliver_data_spec; AppFacts.run;
    destruct live; split; reflexivity.
Qed.

(** X14 on the page that speaks and records "Hi". *)
Lemma X14_witness :
  App.audioUrl (App.after (App.handleClear false capturing)) = None /\
  App.stopEventPending (App.after (App.handleClear false capturing)) = true /\
  App.text (App.after (App.deliver_recorder_stop [[4; 5; 6]]
                         (App.after (App.handleClear false capturing)))) = [] /\
  App.audioUrl (App.after (App.deliver_recorder_stop [[4; 5; 6]]
                             (App.after (App.handleClear false capturing)))) =
    Some (App.capturedBlob
            (App.audioChunks capturing ++
             List.filter nonempty [[4; 5; 6]])).
Proof.
  apply (X14_clear_while_recording capturing [[4; 5; 6]]); reflexivity.
Defined.

(** X15.  downloadAudio never changes the state of the page and never
    raises: with an artifact it clicks one link whose href is the
    artifact, and a failure of that is caught and reported by an alert;
    without one it only shows the advisory alert. *)
Theorem X15_download_leaves_the_page
    (s : App.state) (now : Z) (clickThrows : bool) :
  App.result (App.downloadAudio now clickThrows s) = Some tt /\
  App.after (App.downloadAudio now clickThrows s) = s /\
  App.made (App.downloadAudio now clickThrows s) =
    match App.audioUrl s with
    | None =>
        [App.alert
           "No audio available to download. Please generate speech first."]
    | Some b =>
        if clickThrows
        then [App.console_error "Download error:";
              App.alert "Error downloading audio."]
        else [App.link_click b now]
    end.
Proof.
  destruct s as [? ? ? ? ? ? ? url ? ? ? ? ? ? ? ? ? ? ? ?].
  destruct url, clickThrows; AppFacts.run; repeat split.
Qed.

(** X16.  The cleanup of the effect never revokes an object URL: it was
    created by the first render, whose audioUrl is null, so an artifact
    that the page holds when it is unmounted keeps its URL.  It cancels
    the engine if it speaks and stops the tracks of the stream if there
    is one, and it does not stop the recorder. *)
Theorem X16_unmount_keeps_the_url (s : App.state) :
  App.result (Lifecycle.unmount s) = Some tt /\
  List.filter isRevoke (App.made (Lifecycle.unmount s)) = [] /\
  App.audioUrl (App.after (Lifecycle.unmount s)) = App.audioUrl s /\
  App.synth_speaking (App.after (Lifecycle.unmount s)) = false /\
  App.mediaRecorder (App.after (Lifecycle.unmount s)) = App.mediaRecorder s /\
  App.made (Lifecycle.unmount s) =
    (if App.synth_speaking s then [App.synth_cancel] else []) ++
    (if App.stream s then [App.track_stop] else []).
Proof.
  destruct s as [? ? ? ? ? ? ? url ? ? ? sp ? ? live ? ? ? ? ?].
  unfold Lifecycle.unmount, Lifecycle.cleanup.
  destruct sp, live; AppFacts.run; repeat split.
Qed.

(** X17.  The host calls of an attempt that is captured, on a page that
    holds no artifact and does not speak: the device is asked for the
    microphone, the engine is handed the utterance, the recorder is
    started when the engine starts and stopped when it ends, and at the
    recorder's stop event the captured audio becomes the artifact and
    the tracks are stopped, in this order and with no other call.  The
    page ends idle, with no error message. *)
Theorem X17_calls_of_a_captured_attempt `{Host}
    (s : App.state) (lastData : list (list Z)) :
  trim (App.text s) <> [] -> App.audioUrl s = None ->
  App.synth_speaking s = false -> App.stopEventPending s = false ->
  App.made (attempt microphone false App.ended false lastData s) =
    [App.getUserMedia;
     App.synth_speak {| App.u_text := App.text s;
                        App.u_voice := App.selectedVoice s;
                        App.u_rate := App.rate s;
                        App.u_pitch := App.pitch s;
                        App.u_volume := App.volume s |};
     App.recorder_start; App.recorder_stop;
     App.createObjectURL (App.capturedBlob (List.filter nonempty lastData));
     App.track_stop] /\
  App.audioUrl
    (App.after (attempt microphone false App.ended false lastData s)) =
    Some (App.capturedBlob (List.filter nonempty lastData)) /\
  App.isSpeaking
    (App.after (attempt microphone false App.ended false lastData s)) =
    false /\
  App.isProcessing
    (App.after (attempt microphone false App.ended false lastData s)) =
    false /\
  App.isRecording
    (App.after (attempt microphone false App.ended false lastData s)) =
    false /\
  App.mediaRecorder
    (App.after (attempt microphone false App.ended false lastData s)) =
    Some App.inactive /\
  App.recordingError
    (App.after (attempt microphone false App.ended false lastData s)) =
    ""%string.
Proof.
  intros Ht Hu Hs Hp.
  rewrite !(PageFacts.attempt_nonblank s _ _ _ _ _ Ht). clear Ht.
  destruct s as [t ? ? ? ? ? ? url ? ? ? sp ? ? ? ? ? ? ? pend].
  cbn [App.audioUrl App.synth_speaking App.stopEventPending] in *.
  subst url sp pend. unfold microphone.
  AppFacts.run. rewrite AppFacts.deliver_data_spec. AppFacts.run.
  repeat split.
Qed.

(** X17 on the page where "Hi" was typed. *)
Lemma X17_witness :
  App.made (attempt (H := quietHost) microphone false App.ended false
              [[4; 5; 6]] typed) =
    [App.getUserMedia;
     App.synth_speak {| App.u_text := App.text typed;
                        App.u_voice := App.selectedVoice typed;
                        App.u_rate := App.rate typed;
                        App.u_pitch := App.pitch typed;
                        App.u_volume := App.volume typed |};
     App.recorder_start; App.recorder_stop;
     App.createObjectURL
       (App.capturedBlob (List.filter nonempty [[4; 5; 6]]));
     App.track_stop] /\
  App.audioUrl
    (App.after (attempt (H := quietHost) microphone false App.ended false
                  [[4; 5; 6]] typed)) =
    Some (App.capturedBlob (List.filter nonempty [[4; 5; 6]])) /\
  App.isSpeaking
    (App.after (attempt (H := quietHost) microphone false App.ended false
                  [[4; 5; 6]] typed)) = false /\
  App.isProcessing
    (App.after (attempt (H := quietHost) microphone false App.ended false
                  [[4; 5; 6]] typed)) = false /\
  App.isRecording
    (App.after (attempt (H := quietHost) microphone false App.ended false
                  [[4; 5; 6]] typed)) = false /\
  App.mediaRecorder
    (App.after (attempt (H := quietHost) microphone false App.ended false
                  [[4; 5; 6]] typed)) = Some App.inactive /\
  App.recordingError
    (App.after (attempt (H := quietHost) microphone false App.ended false
                  [[4; 5; 6]] typed)) = ""%string.
Proof.
  apply (X17_calls_of_a_captured_attempt (H := quietHost) typed [[4; 5; 6]]).
  - vm_compute. discriminate.
  - reflexivity.
  - reflexivity.
  - reflexivity.
Defined.



(** ** The voice panel *)

Module VoiceFacts.
Import Voices.

Example loaded_voices :
  voices loaded =
    [voice "David" "en-US"; voice "Zira" "en-US"; voice "Hortense" "fr-FR";
     voice "Kalpana" "hi-IN"] /\
  selectedVoice loaded = Some (voice "Kalpana" "hi-IN") /\
  filteredVoices loaded = [voice "Kalpana" "hi-IN"] /\
  getVoiceType (H := asciiLocale) (voice "Zira" "en-US") = "English"%string.
Proof. repeat split; vm_compute; reflexivity. Qed.

(** Sorting rearranges, and nothing else. *)
Lemma insert_perm {A} (cmp : A -> A -> Z) x l : insert cmp x l ≡ₚ x :: l.
Proof.
  induction l as [|y l IH]; cbn [insert]; [reflexivity|].
  destruct (cmp x y <=? 0); [reflexivity|].
  rewrite IH. apply Permutation_swap.
Qed.

Lemma sort_perm {A} (cmp : A -> A -> Z) l : sort cmp l ≡ₚ l.
Proof.
  induction l as [|x l IH]; [reflexivity|].
  unfold sort. cbn [foldr]. fold (sort cmp l).
  rewrite insert_perm, IH. reflexivity.
Qed.

Section Sorting.
Context {A : Type} (cmp : A -> A -> Z).
Hypothesis cmp_total : forall x y, 0 < cmp x y -> cmp y x <= 0.
Hypothesis cmp_trans :
  forall x y z, cmp x y <= 0 -> cmp y z <= 0 -> cmp x z <= 0.

Lemma insert_sorted x l :
  StronglySorted (fun a b => cmp a b <= 0) l ->
  StronglySorted (fun a b => cmp a b <= 0) (insert cmp x l).
Proof.
  induction 1 as [|y l Hs IH Hy]; cbn [insert].
  - repeat constructor.
  - destruct (Z.leb_spec (cmp x y) 0) as [Hle|Hgt].
    + constructor; [constructor; assumption|].
      constructor; [exact Hle|].
      eapply Forall_impl; [exact Hy|]. intros z Hz. cbv beta in *.
      eapply cmp_trans; eassumption.
    + constructor; [exact IH|].
      rewrite insert_perm. constructor; [auto|exact Hy].
Qed.

Lemma sort_sorted l : StronglySorted (fun a b => cmp a b <= 0) (sort cmp l).
Proof.
  induction l as [|x l IH]; [constructor|].
  unfold sort. cbn [foldr]. apply insert_sorted. exact IH.
Qed.

End Sorting.

(** Searching for substrings. *)
Lemma startsWith_includes s p : startsWith s p = true -> includes s p = true.
Proof. intros E. destruct s; cbn [includes]; rewrite E; reflexivity. Qed.

Lemma startsWith_app_includes p : forall s q,
  startsWith s (p ++ q) = true -> includes s q = true.
Proof.
  induction p as [|a p IH]; intros s q E.
  - apply startsWith_includes. exact E.
  - destruct s as [|c s]; [discriminate E|]. cbn [app startsWith] in E.
    apply andb_prop in E as [_ E]. cbn [includes].
    rewrite (IH _ _ E). apply orb_true_r.
Qed.

Lemma includes_app s p q :
  includes s (p ++ q) = true -> includes s q = true.
Proof.
  induction s as [|c s IH]; cbn [includes]; intros E.
  - apply orb_prop in E as [E|E]; [|discriminate E].
    exact (startsWith_app_includes p [] q E).
  - apply orb_prop in E as [E|E].
    + exact (startsWith_app_includes p (c :: s) q E).
    + rewrite (IH E). apply orb_true_r.
Qed.

Lemma filter_none {A} (f : A -> bool) l :
  (forall x, In x l -> f x = false) -> List.filter f l = [].
Proof.
  induction l as [|x l IH]; [reflexivity|]. intros Hf. cbn [List.filter].
  rewrite (Hf x) by (left; reflexivity). apply IH. intros y Hy. apply Hf.
  right. exact Hy.
Qed.

(** The first voice of a name. *)
Lemma find_name (n : jsstring) (l : list Voice) :
  match find (fun v => bool_decide (name v = n)) l with
  | Some v' =>
      name v' = n /\ In v' l /\
      forall v, In v l -> name v = n -> NoDup (map name l) -> v' = v
  | None => forall v, In v l -> name v <> n
  end.
Proof.
  induction l as [|u l IH]; cbn [find]; [intros v []|].
  destruct (bool_decide (name u = n)) eqn:E.
  - apply bool_decide_eq_true in E. split; [exact E|].
    split; [left; reflexivity|].
    intros v [->|Hin] Hn Hnd; [reflexivity|]. exfalso.
    cbn [map] in Hnd. apply NoDup_cons in Hnd as [Hnot _]. apply Hnot.
    rewrite E, <- Hn. apply list_elem_of_In, in_map, Hin.
  - apply bool_decide_eq_false in E.
    destruct (find _ l) as [v'|].
    + destruct IH as (Hn & Hin & Huniq). split; [exact Hn|].
      split; [right; exact Hin|].
      intros v [->|Hv] Hvn Hnd; [contradiction|].
      apply Huniq; auto. cbn [map] in Hnd.
      apply NoDup_cons in Hnd as [_ Hnd]. exact Hnd.
    + intros v [->|Hv]; [exact E | apply IH; exact Hv].
Qed.

Section WithLocale.
Context `{Locale}.

(** The choice of lines 57-60, on any list. *)
Lemma defaultVoice_spec (l : list Voice) :
  match defaultVoice l with
  | None => l = []
  | Some v =>
      In v l /\
      (Exists (fun u => includes (lang u) (str "hi") = true) l ->
       includes (lang v) (str "hi") = true) /\
      (~ Exists (fun u => includes (lang u) (str "hi") = true) l ->
       Exists (fun u => includes (lang u) (str "en") = true) l ->
       includes (lang v) (str "en") = true) /\
      (~ Exists (fun u => includes (lang u) (str "hi") = true) l ->
       ~ Exists (fun u => includes (lang u) (str "en") = true) l ->
       head l = Some v)
  end.
Proof.
  unfold defaultVoice.
  destruct (find _ l) as [v|] eqn:Ehi.
  - apply find_some in Ehi as [Hin Hv].
    split; [exact Hin|]. split; [auto|].
    split; intros Hno; exfalso; apply Hno, List.Exists_exists; exists v; auto.
  - pose proof (find_none _ _ Ehi) as Hhi. cbv beta in Hhi.
    assert (Hno : ~ Exists (fun u => includes (lang u) (str "hi") = true) l).
    { intros (u & Hu & Hx)%List.Exists_exists. rewrite (Hhi u Hu) in Hx.
      discriminate. }
    destruct (find (fun voice => includes (lang voice) (str "en")) l)
      as [v|] eqn:Een.
    + apply find_some in Een as [Hin Hv].
      split; [exact Hin|]. split; [intros; contradiction|].
      split; [auto|]. intros _ Hne. exfalso.
      apply Hne, List.Exists_exists; exists v; auto.
    + pose proof (find_none _ _ Een) as Hen. cbv beta in Hen.
      destruct l as [|v l]; [reflexivity|]. cbn [head].
      split; [left; reflexivity|]. split; [intros; contradiction|].
      split; [|reflexivity].
      intros _ (u & Hu & Hx)%List.Exists_exists. rewrite (Hen u Hu) in Hx.
      discriminate.
Qed.

Lemma loadVoices_voices (available : list Voice) (s : state) :
  voices (loadVoices available s) = sort compareVoices available.
Proof. unfold loadVoices. destruct (defaultVoice _); reflexivity. Qed.

Section Sorted.
Hypothesis Hc : consistent localeCompare.

Lemma localeCompare_refl a : localeCompare a a = 0.
Proof. destruct Hc as (Hs & _). specialize (Hs a a). lia. Qed.

Lemma compareVoices_listed u w :
  compareVoices u w <= 0 <-> listedBefore u w.
Proof.
  unfold compareVoices, listedBefore. destruct (bool_decide _) eqn:E.
  - apply bool_decide_eq_true in E. rewrite E, localeCompare_refl.
    split; [intros; split; [lia|auto]|intros [_ Hn]; auto].
  - apply bool_decide_eq_false in E.
    split; [intros; split; [assumption|contradiction]|intros [Hl _]; auto].
Qed.

Lemma compareVoices_total x y :
  0 < compareVoices x y -> compareVoices y x <= 0.
Proof.
  destruct Hc as (Hs & _). unfold compareVoices.
  destruct (bool_decide (lang x = lang y)) eqn:E.
  - apply bool_decide_eq_true in E. rewrite bool_decide_true by auto.
    specialize (Hs (name x) (name y)). lia.
  - apply bool_decide_eq_false in E. rewrite bool_decide_false by auto.
    specialize (Hs (lang x) (lang y)). lia.
Qed.

Lemma compareVoices_trans x y z :
  compareVoices x y <= 0 -> compareVoices y z <= 0 -> compareVoices x z <= 0.
Proof.
  destruct Hc as (Hs & Ht & He). unfold compareVoices.
  destruct (bool_decide (lang x = lang y)) eqn:Exy;
  destruct (bool_decide (lang y = lang z)) eqn:Eyz;
  [apply bool_decide_eq_true in Exy | apply bool_decide_eq_true in Exy |
   apply bool_decide_eq_false in Exy | apply bool_decide_eq_false in Exy];
  [apply bool_decide_eq_true in Eyz | apply bool_decide_eq_false in Eyz |
   apply bool_decide_eq_true in Eyz | apply bool_decide_eq_false in Eyz].
  - rewrite bool_decide_true by congruence. apply Ht.
  - rewrite bool_decide_false by congruence. rewrite Exy. auto.
  - rewrite bool_decide_false by congruence. rewrite <- Eyz. auto.
  - intros H1 H2. destruct (bool_decide (lang x = lang z)) eqn:Exz.
    + apply bool_decide_eq_true in Exz. exfalso. apply Exy, He.
      rewrite <- Exz in H2. specialize (Hs (lang x) (lang y)). lia.
    + exact (Ht _ _ _ H1 H2).
Qed.

Lemma sort_listed (available : list Voice) :
  StronglySorted listedBefore (sort compareVoices available).
Proof.
  pose proof (sort_sorted compareVoices compareVoices_total
                compareVoices_trans available) as Hs.
  induction Hs as [|u l Hs IH Hu]; [constructor|].
  constructor; [exact IH|].
  eapply Forall_impl; [exact Hu|]. intros w. apply compareVoices_listed.
Qed.

End Sorted.
End WithLocale.

(** Comparison by code units is a total order. *)
Lemma codeUnitCompare_consistent : consistent codeUnitCompare.
Proof.
  split; [|split].
  - induction a as [|x a IH]; intros [|y b]; cbn [codeUnitCompare];
      try reflexivity.
    rewrite (Z.eqb_sym y x). destruct (Z.eqb_spec x y); [apply IH|lia].
  - induction a as [|x a IH]; intros [|y b] [|z c]; cbn [codeUnitCompare];
      try lia.
    destruct (Z.eqb_spec x y), (Z.eqb_spec y z), (Z.eqb_spec x z);
      try lia. apply IH.
  - induction a as [|x a IH]; intros [|y b]; cbn [codeUnitCompare];
      try reflexivity; try discriminate.
    destruct (Z.eqb_spec x y); [|lia]. intros E. subst. f_equal. auto.
Qed.

End VoiceFacts.

(** X19.  loadVoices stores a rearrangement of the voices it is given
    and leaves the language filter alone.  With no voice it keeps the
    selection; otherwise it replaces the selection, whatever the user
    had chosen, by a voice of the list: one whose lang includes "hi" if
    there is any, else one whose lang includes "en" if there is any. *)
Theorem X19_default_voice `{Voices.Locale}
    (available : list Voices.Voice) (s : Voices.state) :
  Voices.voices (Voices.loadVoices available s) ≡ₚ available /\
  Voices.languageFilter (Voices.loadVoices available s) =
    Voices.languageFilter s /\
  (available = [] ->
   Voices.selectedVoice (Voices.loadVoices available s) =
     Voices.selectedVoice s) /\
  (available <> [] ->
   exists v,
     Voices.selectedVoice (Voices.loadVoices available s) = Some v /\
     In v available /\
     (Exists (fun u => Voices.includes (Voices.lang u) (str "hi") = true)
        available ->
      Voices.includes (Voices.lang v) (str "hi") = true) /\
     (~ Exists (fun u => Voices.includes (Voices.lang u) (str "hi") = true)
          available ->
      Exists (fun u => Voices.includes (Voices.lang u) (str "en") = true)
        available ->
      Voices.includes (Voices.lang v) (str "en") = true)).
Proof.
  pose proof (VoiceFacts.sort_perm Voices.compareVoices available) as Hp.
  pose proof (VoiceFacts.defaultVoice_spec
                (Voices.sort Voices.compareVoices available)) as Hd.
  unfold Voices.loadVoices.
  destruct (Voices.defaultVoice (Voices.sort Voices.compareVoices available))
    as [v|].
  - cbn [Voices.voices Voices.selectedVoice Voices.languageFilter
         Voices.setSelectedVoice Voices.setVoices].
    destruct Hd as (Hin & Hhi & Hen & _).
    split; [exact Hp|]. split; [reflexivity|].
    split.
    { intros ->. destruct Hin. }
    intros _. exists v. split; [reflexivity|].
    split; [exact (Permutation_in _ Hp Hin)|].
    rewrite <- Hp. split; assumption.
  - cbn [Voices.voices Voices.selectedVoice Voices.languageFilter
         Voices.setVoices].
    split; [exact Hp|]. split; [reflexivity|].
    split; [reflexivity|]. intros Hne. exfalso. apply Hne.
    rewrite Hd in Hp. symmetry in Hp. apply Permutation_nil_r in Hp.
    exact Hp.
Qed.

(** X20.  When localeCompare is a total order on strings, the voices
    that loadVoices stores are listed by language, and by name within a
    language: every voice comes before all the later ones in that
    order. *)
Theorem X20_voices_listed_by_language_then_name `{Voices.Locale}
    (available : list Voices.Voice) (s : Voices.state) :
  consistent Voices.localeCompare ->
  StronglySorted listedBefore (Voices.voices (Voices.loadVoices available s)).
Proof.
  intros Hc. rewrite VoiceFacts.loadVoices_voices.
  apply VoiceFacts.sort_listed. exact Hc.
Qed.

(** X20 on four installed voices, ordered by code units. *)
Lemma X20_witness :
  StronglySorted (listedBefore (H := asciiLocale))
    (Voices.voices
       (Voices.loadVoices (H := asciiLocale) installed Voices.initial)).
Proof.
  apply (X20_voices_listed_by_language_then_name (H := asciiLocale)
           installed Voices.initial).
  exact VoiceFacts.codeUnitCompare_consistent.
Defined.

(** X21.  The panel starts with the filter "hi".  When no installed
    voice has a lang that includes "hi", loadVoices still selects a
    voice, but the filtered list that the panel shows is empty: the
    selected voice is not among the voices shown. *)
Theorem X21_default_filter_hides_the_selection `{Voices.Locale}
    (available : list Voices.Voice) :
  available <> [] ->
  (forall v, In v available ->
     Voices.includes (Voices.lang v) (str "hi") = false) ->
  Voices.filteredVoices (Voices.loadVoices available Voices.initial) = [] /\
  exists v,
    Voices.selectedVoice (Voices.loadVoices available Voices.initial) =
      Some v /\
    In v available.
Proof.
  intros Hne Hno.
  pose proof (VoiceFacts.sort_perm Voices.compareVoices available) as Hp.
  pose proof (VoiceFacts.defaultVoice_spec
                (Voices.sort Voices.compareVoices available)) as Hd.
  assert (Hf : Voices.filteredVoices
                 (Voices.loadVoices available Voices.initial) = []).
  { unfold Voices.filteredVoices.
    rewrite VoiceFacts.loadVoices_voices.
    assert (Voices.languageFilter
              (Voices.loadVoices available Voices.initial) = str "hi") as ->
      by (unfold Voices.loadVoices; destruct (Voices.defaultVoice _);
          reflexivity).
    rewrite bool_decide_false by discriminate.
    apply VoiceFacts.filter_none. intros u Hu.
    destruct (Voices.startsWith (Voices.lang u) (str "hi")) eqn:E;
      [|reflexivity].
    apply VoiceFacts.startsWith_includes in E.
    rewrite Hno in E; [discriminate|]. exact (Permutation_in _ Hp Hu). }
  split; [exact Hf|].
  unfold Voices.loadVoices.
  destruct (Voices.defaultVoice (Voices.sort Voices.compareVoices available))
    as [v|].
  - exists v. split; [reflexivity|].
    destruct Hd as (Hin & _). exact (Permutation_in _ Hp Hin).
  - exfalso. apply Hne. rewrite Hd in Hp. symmetry in Hp.
    apply Permutation_nil_r in Hp. exact Hp.
Qed.

(** X21 where two English voices are installed. *)
Lemma X21_witness :
  Voices.filteredVoices
    (Voices.loadVoices (H := asciiLocale)
       [voice "Zira" "en-US"; voice "David" "en-US"] Voices.initial) = [] /\
  exists v,
    Voices.selectedVoice
      (Voices.loadVoices (H := asciiLocale)
         [voice "Zira" "en-US"; voice "David" "en-US"] Voices.initial) =
      Some v /\
    In v [voice "Zira" "en-US"; voice "David" "en-US"].
Proof.
  apply (X21_default_filter_hides_the_selection (H := asciiLocale)
           [voice "Zira" "en-US"; voice "David" "en-US"]).
  - discriminate.
  - intros v [<-|[<-|[]]]; vm_compute; reflexivity.
Defined.

(** X22.  handleVoiceChange with the name of a listed voice selects the
    first listed voice of that name, which is that voice when names are
    not repeated; with a name that no listed voice has it clears the
    selection.  The list and the filter are left alone. *)
Theorem X22_voice_is_selected_by_name
    (v : Voices.Voice) (s : Voices.state) :
  In v (Voices.voices s) ->
  Voices.voices (Voices.handleVoiceChange (Voices.name v) s) =
    Voices.voices s /\
  Voices.languageFilter (Voices.handleVoiceChange (Voices.name v) s) =
    Voices.languageFilter s /\
  (exists v',
     Voices.selectedVoice (Voices.handleVoiceChange (Voices.name v) s) =
       Some v' /\
     Voices.name v' = Voices.name v /\ In v' (Voices.voices s) /\
     (NoDup (map Voices.name (Voices.voices s)) -> v' = v)) /\
  forall n,
    (forall u, In u (Voices.voices s) -> Voices.name u <> n) ->
    Voices.selectedVoice (Voices.handleVoiceChange n s) = None.
Proof.
  intros Hin. split; [reflexivity|]. split; [reflexivity|].
  unfold Voices.handleVoiceChange.
  cbn [Voices.selectedVoice Voices.setSelectedVoice]. split.
  - pose proof (VoiceFacts.find_name (Voices.name v) (Voices.voices s))
      as Hf.
    destruct (find _ (Voices.voices s)) as [v'|].
    + destruct Hf as (Hn & Hv' & Huniq). exists v'.
      split; [reflexivity|]. split; [exact Hn|]. split; [exact Hv'|].
      intros Hnd. apply Huniq; auto.
    + exfalso. exact (Hf v Hin eq_refl).
  - intros n Hno.
    pose proof (VoiceFacts.find_name n (Voices.voices s)) as Hf.
    destruct (find _ (Voices.voices s)) as [v'|]; [|reflexivity].
    destruct Hf as (Hn & Hv' & _). exfalso. exact (Hno v' Hv' Hn).
Qed.

(** X22 on the loaded panel: the voice "Zira" is clicked. *)
Lemma X22_witness :
  Voices.voices
    (Voices.handleVoiceChange (Voices.name (voice "Zira" "en-US")) loaded) =
    Voices.voices loaded /\
  Voices.languageFilter
    (Voices.handleVoiceChange (Voices.name (voice "Zira" "en-US")) loaded) =
    Voices.languageFilter loaded /\
  (exists v',
     Voices.selectedVoice
       (Voices.handleVoiceChange (Voices.name (voice "Zira" "en-US"))
          loaded) = Some v' /\
     Voices.name v' = Voices.name (voice "Zira" "en-US") /\
     In v' (Voices.voices loaded) /\
     (NoDup (map Voices.name (Voices.voices loaded)) ->
      v' = voice "Zira" "en-US")) /\
  forall n,
    (forall u, In u (Voices.voices loaded) -> Voices.name u <> n) ->
    Voices.selectedVoice (Voices.handleVoiceChange n loaded) = None.
Proof.
  apply (X22_voice_is_selected_by_name (voice "Zira" "en-US") loaded).
  vm_compute. right. left. reflexivity.
Defined.

(** X23.  getVoiceType always returns one of the nine keys of the
    colour table, so the badge of a voice never has the default colour
    #757575.  A voice is typed Male only if its lowered name does not
    include "female" (every name that includes "female" includes "male",
    so the order of the two tests matters), and a voice whose lowered
    lang includes "en" is typed by its language, whatever its name. *)
Theorem X23_voice_badge `{Voices.Locale} (v : Voices.Voice) :
  In (Voices.getVoiceType v) (map fst Voices.colors) /\
  Voices.getVoiceTypeColor (Voices.getVoiceType v) <> "#757575"%string /\
  (Voices.getVoiceType v = "Male"%string ->
   Voices.includes (Voices.toLowerCase (Voices.name v)) (str "female") =
     false) /\
  (Voices.includes (Voices.toLowerCase (Voices.name v)) (str "female") =
     true ->
   Voices.includes (Voices.toLowerCase (Voices.name v)) (str "male") =
     true) /\
  (Voices.includes (Voices.toLowerCase (Voices.lang v)) (str "en") = true ->
   Voices.getVoiceType v = "Hindi"%string \/
   Voices.getVoiceType v = "English"%string).
Proof.
  split; [|split; [|split; [|split]]].
  - unfold Voices.getVoiceType.
    repeat (match goal with
            | |- context [if ?b then _ else _] => destruct b
            end; [cbn; tauto|]).
    cbn; tauto.
  - unfold Voices.getVoiceType.
    repeat (match goal with
            | |- context [if ?b then _ else _] => destruct b
            end; [vm_compute; discriminate|]).
    vm_compute; discriminate.
  - unfold Voices.getVoiceType.
    repeat (match goal with
            | |- context [if ?b then _ else _] =>
                destruct b eqn:?
            end; [try discriminate; auto|]).
    discriminate.
  - apply (VoiceFacts.includes_app _ (str "fe") (str "male")).
  - intros E. unfold Voices.getVoiceType. rewrite E.
    destruct (Voices.includes _ (str "hi")); auto.
Qed.
